(** * The kernel trace buffer (kernel/lib/ktrace/ktrace.cpp)

    A shallow embedding of the trace buffer core: the group-mask gate, the
    fetch-and-add slot allocator, the name-record encoder, the
    start/stop/rewind control switch and the read-out path, followed by the
    properties of these operations.

    Conventions.
    - C integers are values of [Z]; every conversion the C code performs
      (to [uint32_t], to [int]) is written out with [to_u32] and [to_int].
    - [ks->buffer] is modelled by the bytes it points to: a flat memory
      addressed by the byte offset from the buffer pointer.  The C code
      performs no bounds check on its stores and neither does the model.
    - The operations live in a small state monad over [ktrace_state] that
      also logs the stores, read-modify-writes and external calls in
      program order, so that "before", "then" and "no atomic operation"
      can be stated.  The model is sequential: one operation at a time. *)

From Stdlib Require Import ZArith List Bool Lia.
Import ListNotations.
Local Open Scope Z_scope.

(** ** Machine integers *)

(** Conversion to [uint32_t]. *)
Definition to_u32 (x : Z) : Z := x mod 2 ^ 32.

(** Conversion to [int] (32 bits, two's complement). *)
Definition to_int (x : Z) : Z := (x + 2 ^ 31) mod 2 ^ 32 - 2 ^ 31.

Definition INT_MAX : Z := 2 ^ 31 - 1.

(** The [n] low bytes of [x], least significant first (x86-64 and arm64
    are little-endian). *)
Fixpoint le_bytes (n : nat) (x : Z) : list Z :=
  match n with
  | O => []
  | S k => (x mod 256) :: le_bytes k (x / 256)
  end.

(** ** Memory *)

Definition memory := Z -> Z.

(** [store_bytes m a bs] is [m] with the bytes [bs] stored from address [a]. *)
Definition store_bytes (m : memory) (a : Z) (bs : list Z) : memory :=
  fun x =>
    if (a <=? x) && (x <? a + Z.of_nat (length bs))
    then nth (Z.to_nat (x - a)) bs 0
    else m x.

(** The [n] bytes of [src] from index 0, as [memcpy] reads them. *)
Definition read_bytes (src : memory) (n : nat) : list Z :=
  map (fun i => src (Z.of_nat i)) (seq 0 n).

(** [strnlen]: the number of bytes before the first NUL, looking at no more
    than [maxlen] bytes. *)
Fixpoint strnlen_from (s : memory) (i : Z) (maxlen : nat) : Z :=
  match maxlen with
  | O => 0
  | S k => if s i =? 0 then 0 else 1 + strnlen_from s (i + 1) k
  end.

Definition strnlen (s : memory) (maxlen : nat) : Z := strnlen_from s 0 maxlen.

(** ** Declarations the source takes from its headers

    [lib/ktrace.h] and [err.h] are not part of the sources at hand; the
    constants, the group macro and the two record layouts they declare are
    the fields of this class.  Theorems state the facts about them they
    rely on as hypotheses. *)
Class ktrace_h : Type := {
  KTRACE_HDRSIZE : Z;
  KTRACE_RECSIZE : Z;
  KTRACE_VERSION : Z;
  KTRACE_GRP_ALL : Z;
  KTRACE_GRP_TO_MASK : Z -> Z;
  KTRACE_ACTION_START : Z;
  KTRACE_ACTION_STOP : Z;
  KTRACE_ACTION_REWIND : Z;
  TAG_VERSION : Z;
  TAG_TICKS_PER_MS : Z;
  NO_ERROR : Z;
  ERR_INVALID_ARGS : Z;
  (* ktrace_header_t: its size and the offsets of ts, tag and tid *)
  sizeof_ktrace_header_t : Z;
  hdr_ts : Z;
  hdr_tag : Z;
  hdr_tid : Z;
  (* ktrace_rec_32b_t: its size and the offsets of tag, a and b *)
  sizeof_ktrace_rec_32b_t : Z;
  rec_tag : Z;
  rec_a : Z;
  rec_b : Z
}.

(** Modelled from the spec: the [KTRACE_LEN] macro of [lib/ktrace.h], which
    is missing.  The tag holds the record's total length in 8-byte units in
    its fixed low bits; [ktrace_name] shows them to be the low four
    ([tag & 0xFFFFFFF0] clears exactly the length field). *)
Definition KTRACE_LEN (tag : Z) : Z := Z.shiftl (Z.land tag 15) 3.

(** ** The trace buffer state *)

Record ktrace_state : Type := mk_ktrace_state {
  offset : Z;      (* int: where the next record will be written *)
  grpmask : Z;     (* int: mask of groups we allow, 0 == tracing disabled *)
  bufsize : Z;     (* uint32_t: total size of the trace buffer *)
  marker : Z;      (* uint32_t: offset where tracing was stopped, 0 if active *)
  buffer : memory  (* the bytes behind the raw trace buffer pointer *)
}.

Definition set_offset (v : Z) (ks : ktrace_state) : ktrace_state :=
  mk_ktrace_state v (grpmask ks) (bufsize ks) (marker ks) (buffer ks).
Definition set_grpmask (v : Z) (ks : ktrace_state) : ktrace_state :=
  mk_ktrace_state (offset ks) v (bufsize ks) (marker ks) (buffer ks).
Definition set_bufsize (v : Z) (ks : ktrace_state) : ktrace_state :=
  mk_ktrace_state (offset ks) (grpmask ks) v (marker ks) (buffer ks).
Definition set_marker (v : Z) (ks : ktrace_state) : ktrace_state :=
  mk_ktrace_state (offset ks) (grpmask ks) (bufsize ks) v (buffer ks).
Definition set_buffer (m : memory) (ks : ktrace_state) : ktrace_state :=
  mk_ktrace_state (offset ks) (grpmask ks) (bufsize ks) (marker ks) m.

(** [static ktrace_state_t KTRACE_STATE]: zero-initialised. *)
Definition KTRACE_STATE : ktrace_state :=
  mk_ktrace_state 0 0 0 0 (fun _ => 0).

(** ** Effects *)

(** What an operation does to shared state or the outside, in program
    order.  Loads are not logged. *)
Inductive event : Type :=
| EvStoreMarker (v : Z)                  (* ks->marker = v *)
| EvStoreBufsize (v : Z)                 (* ks->bufsize = v *)
| EvAtomicStoreGrpmask (v : Z)           (* atomic_store(&ks->grpmask, v) *)
| EvAtomicStoreOffset (v : Z)            (* atomic_store(&ks->offset, v) *)
| EvAtomicAddOffset (n : Z)              (* atomic_add(&ks->offset, n) *)
| EvAlloc (size : Z)                     (* aspace->Alloc("ktrace", size, ...) *)
| EvWrite (addr : Z) (bytes : list Z)    (* a store into the buffer *)
| EvCopyToUser (ptr src len : Z)         (* arch_copy_to_user(ptr, buffer + src, len) *)
| EvReportLiveThreads.                   (* ktrace_report_live_threads() *)

Definition M (A : Type) : Type := ktrace_state -> A * ktrace_state * list event.

Definition ret {A : Type} (a : A) : M A := fun ks => (a, ks, []).

Definition bind {A B : Type} (c : M A) (k : A -> M B) : M B :=
  fun ks =>
    let '(a, ks1, t1) := c ks in
    let '(b, ks2, t2) := k a ks1 in
    (b, ks2, t1 ++ t2).

Notation "x <- c ;; k" := (bind c (fun x => k))
  (at level 61, c at next level, right associativity).
Notation "c ;; k" := (bind c (fun _ => k))
  (at level 61, right associativity).

(** Projections of a run. *)
Definition result {A : Type} (r : A * ktrace_state * list event) : A := fst (fst r).
Definition state_of {A : Type} (r : A * ktrace_state * list event) : ktrace_state :=
  snd (fst r).
Definition trace_of {A : Type} (r : A * ktrace_state * list event) : list event :=
  snd r.

Definition get_ks : M ktrace_state := fun ks => (ks, ks, []).

Definition store_marker (v : Z) : M unit :=
  fun ks => (tt, set_marker v ks, [EvStoreMarker v]).

Definition store_bufsize (v : Z) : M unit :=
  fun ks => (tt, set_bufsize v ks, [EvStoreBufsize v]).

(** [atomic_store] on the [int] fields: the value is converted to [int]. *)
Definition atomic_store_grpmask (v : Z) : M unit :=
  fun ks => (tt, set_grpmask (to_int v) ks, [EvAtomicStoreGrpmask (to_int v)]).

Definition atomic_store_offset (v : Z) : M unit :=
  fun ks => (tt, set_offset (to_int v) ks, [EvAtomicStoreOffset (to_int v)]).

(** [atomic_add(&ks->offset, n)]: fetch-and-add, the value before the
    addition is returned; the sum wraps as [int]. *)
Definition atomic_add_offset (n : Z) : M Z :=
  fun ks => (offset ks, set_offset (to_int (offset ks + n)) ks, [EvAtomicAddOffset n]).

Definition write_bytes (addr : Z) (bs : list Z) : M unit :=
  fun ks => (tt, set_buffer (store_bytes (buffer ks) addr bs) ks, [EvWrite addr bs]).

Definition write_u8 (addr v : Z) : M unit := write_bytes addr (le_bytes 1 v).
Definition write_u32 (addr v : Z) : M unit := write_bytes addr (le_bytes 4 v).
Definition write_u64 (addr v : Z) : M unit := write_bytes addr (le_bytes 8 v).

(** [memcpy(buffer + dest, src, n)]. *)
Definition memcpy (dest : Z) (src : memory) (n : Z) : M unit :=
  write_bytes dest (read_bytes src (Z.to_nat n)).

(** [arch_copy_to_user(ptr, ks->buffer + src, len)]: the external copy
    routine answers with a status; the trace buffer is only read. *)
Definition call_copy_to_user (arch_copy_to_user : Z -> Z -> Z -> Z)
    (ptr src len : Z) : M Z :=
  fun ks => (arch_copy_to_user ptr src len, ks, [EvCopyToUser ptr src len]).

(** [aspace->Alloc("ktrace", size, &ks->buffer, ...)]: on success
    (a status that is not negative) [ks->buffer] is the fresh region. *)
Definition call_alloc (size status : Z) (region : memory) : M Z :=
  fun ks =>
    (status, if status <? 0 then ks else set_buffer region ks, [EvAlloc size]).

(** ** The operations *)

Section Ktrace.

Context {hdrs : ktrace_h}.

(** Lines 58-66 of [ktrace_read_user]: the readable extent [max]. *)
Definition readable_max (ks : ktrace_state) : Z :=
  if negb (marker ks =? 0) then marker ks
  else
    let max := to_u32 (offset ks) in
    if max >? bufsize ks then bufsize ks else max.

(** [ktrace_read_user(ptr, off, len)].  [ptr] is the user address, 0 for
    [NULL]; [arch_copy_to_user] is the external copy routine, given the
    destination, the source offset in the buffer and the length, and
    answering with a status. *)
Definition ktrace_read_user (arch_copy_to_user : Z -> Z -> Z -> Z)
    (ptr off len : Z) : M Z :=
  ks <- get_ks ;;
  let max := readable_max ks in
  if ptr =? 0 then ret (to_int max)
  else if off >=? max then ret 0
  else
    let len := if len >? max - off then max - off else len in
    status <- call_copy_to_user arch_copy_to_user ptr off len ;;
    if negb (status =? NO_ERROR) then ret ERR_INVALID_ARGS
    else ret (to_int len).

(** [ktrace_open(tag)].  [ts] is what [ktrace_timestamp()] answers and
    [tid] the current thread's [user_tid].  The result is the offset in the
    buffer the returned pointer [hdr + 1] points to, [None] for [NULL]. *)
Definition ktrace_open (tag ts tid : Z) : M (option Z) :=
  ks <- get_ks ;;
  if Z.land tag (to_u32 (grpmask ks)) =? 0 then ret None
  else
    off <- atomic_add_offset (KTRACE_LEN tag) ;;
    if off >=? to_int (bufsize ks) then
      atomic_store_grpmask 0 ;;
      ret None
    else
      write_u64 (off + hdr_ts) ts ;;
      write_u32 (off + hdr_tag) tag ;;
      write_u32 (off + hdr_tid) (to_u32 tid) ;;
      ret (Some (off + sizeof_ktrace_header_t)).

(** The tag [ktrace_name] makes: the length field replaced by
    sizeof(hdr) + sizeof(id) + sizeof(arg) + len + 1 rounded up, in
    8-byte units. *)
Definition name_tag (tag len : Z) : Z :=
  Z.lor (Z.land tag 4294967280 (* 0xFFFFFFF0 *))
        (Z.shiftr (to_u32 (KTRACE_HDRSIZE + 8 + len + 1 + 7)) 3).

(** [ktrace_name(tag, id, arg, name)]; [name] is the memory behind the
    string pointer.  In [namerec_t], [id] is at 0, [arg] at 4 and [name]
    at 8. *)
Definition ktrace_name (tag id arg : Z) (name : memory) (ts tid : Z) : M unit :=
  let len := strnlen name 31 in
  let tag := name_tag tag len in
  rec <- ktrace_open tag ts tid ;;
  match rec with
  | Some rec =>
      write_u32 rec id ;;
      write_u32 (rec + 4) arg ;;
      memcpy (rec + 8) name len ;;
      write_u8 (rec + 8 + len) 0
  | None => ret tt
  end.

(** One live thread as the enumeration reports it. *)
Record live_thread : Type := mk_live_thread {
  lt_tag : Z;
  lt_id : Z;
  lt_arg : Z;
  lt_name : memory;
  lt_ts : Z;       (* the timestamp its record gets *)
  lt_tid : Z       (* the thread running the enumeration *)
}.

(** Modelled from the spec: the body of [ktrace_report_live_threads],
    missing with thread.c: one name record per live thread, in order, each
    emitted through [ktrace_name]. *)
Fixpoint report_names (threads : list live_thread) : M unit :=
  match threads with
  | [] => ret tt
  | t :: rest =>
      ktrace_name (lt_tag t) (lt_id t) (lt_arg t) (lt_name t) (lt_ts t) (lt_tid t) ;;
      report_names rest
  end.

(** Modelled from the spec: [ktrace_report_live_threads], "implemented by
    thread.c", which is missing.  It is the external live-entity
    enumeration that backfills the trace with the context that exists when
    tracing starts; the source calls it to "report names of existing
    threads". *)
Definition ktrace_report_live_threads (threads : list live_thread) : M unit :=
  (fun ks => (tt, ks, [EvReportLiveThreads])) ;;
  report_names threads.

(** [ktrace_control(action, options)]; [threads] are the threads alive
    when the call is made. *)
Definition ktrace_control (threads : list live_thread) (action options : Z) : M Z :=
  if action =? KTRACE_ACTION_START then
    let options := to_u32 (KTRACE_GRP_TO_MASK options) in
    store_marker 0 ;;
    atomic_store_grpmask
      (if negb (options =? 0) then options
       else to_u32 (KTRACE_GRP_TO_MASK KTRACE_GRP_ALL)) ;;
    ktrace_report_live_threads threads ;;
    ret NO_ERROR
  else if action =? KTRACE_ACTION_STOP then
    atomic_store_grpmask 0 ;;
    ks <- get_ks ;;
    let n := to_u32 (offset ks) in
    (if n >? bufsize ks then store_marker (bufsize ks) else store_marker n) ;;
    ret NO_ERROR
  else if action =? KTRACE_ACTION_REWIND then
    atomic_store_offset (KTRACE_RECSIZE * 2) ;;
    ret NO_ERROR
  else ret ERR_INVALID_ARGS.

(** What [ktrace_init] gets from outside. *)
Record boot_env : Type := mk_boot_env {
  cmdline_bufsize : Z;     (* cmdline_get_uint32("ktrace.bufsize", default) *)
  cmdline_grpmask : Z;     (* cmdline_get_uint32("ktrace.grpmask", default) *)
  alloc_status : Z;        (* status of aspace->Alloc *)
  alloc_memory : memory;   (* contents of the region Alloc hands out *)
  ticks_per_ms : Z;        (* ktrace_ticks_per_ms() *)
  boot_threads : list live_thread
}.

(** [ktrace_init(level)]. *)
Definition ktrace_init (env : boot_env) : M unit :=
  let mb := cmdline_bufsize env in
  let grpmask := cmdline_grpmask env in
  if mb =? 0 then ret tt
  else
    let mb := to_u32 (mb * (1024 * 1024)) in
    status <- call_alloc mb (alloc_status env) (alloc_memory env) ;;
    if status <? 0 then ret tt
    else
      store_bufsize (to_u32 (mb - 256)) ;;
      let n := ticks_per_ms env in
      write_u32 (0 * sizeof_ktrace_rec_32b_t + rec_tag) TAG_VERSION ;;
      write_u32 (0 * sizeof_ktrace_rec_32b_t + rec_a) KTRACE_VERSION ;;
      write_u32 (1 * sizeof_ktrace_rec_32b_t + rec_tag) TAG_TICKS_PER_MS ;;
      write_u32 (1 * sizeof_ktrace_rec_32b_t + rec_a) (to_u32 n) ;;
      write_u32 (1 * sizeof_ktrace_rec_32b_t + rec_b) (to_u32 (Z.shiftr n 32)) ;;
      atomic_store_offset (KTRACE_RECSIZE * 2) ;;
      atomic_store_grpmask (to_u32 (KTRACE_GRP_TO_MASK grpmask)) ;;
      ktrace_report_live_threads (boot_threads env).

(** The header [ktrace_open] writes into the slot at [off]. *)
Definition with_header (off tag ts tid : Z) (m : memory) : memory :=
  store_bytes
    (store_bytes
       (store_bytes m (off + hdr_ts) (le_bytes 8 ts))
       (off + hdr_tag) (le_bytes 4 tag))
    (off + hdr_tid) (le_bytes 4 (to_u32 tid)).

(** The payload [ktrace_name] writes behind the header, at [rec]. *)
Definition with_name_record (rec id arg : Z) (name : memory) (len : Z) (m : memory)
  : memory :=
  store_bytes
    (store_bytes
       (store_bytes
          (store_bytes m rec (le_bytes 4 id))
          (rec + 4) (le_bytes 4 arg))
       (rec + 8) (read_bytes name (Z.to_nat len)))
    (rec + 8 + len) (le_bytes 1 0).

(** The readable extent in the specification's words: the marker when it
    is not zero, otherwise the cursor clamped to the capacity.  The cursor
    is the [offset] field as the read path reads it, into a [uint32_t]. *)
Definition spec_extent (ks : ktrace_state) : Z :=
  if marker ks =? 0 then Z.min (to_u32 (offset ks)) (bufsize ks) else marker ks.

(** The group mask Start stores: the requested groups as a mask, all
    groups when that mask is zero. *)
Definition start_mask (options : Z) : Z :=
  let options := to_u32 (KTRACE_GRP_TO_MASK options) in
  if negb (options =? 0) then options
  else to_u32 (KTRACE_GRP_TO_MASK KTRACE_GRP_ALL).

(** The state between Start's two stores and the enumeration. *)
Definition armed (options : Z) (ks : ktrace_state) : ktrace_state :=
  set_grpmask (to_int (start_mask options)) (set_marker 0 ks).

(** How a run of an emitter relates the state after to the state before:
    [bufsize] and [marker] are kept, [grpmask] is kept or cleared, and
    with room for a record of maximal length at the cursor [grpmask] is
    kept and the cursor moves forward by at most that length. *)
Definition emitted (ks ks' : ktrace_state) : Prop :=
  bufsize ks' = bufsize ks /\
  marker ks' = marker ks /\
  (grpmask ks' = grpmask ks \/ grpmask ks' = 0) /\
  (- 2 ^ 31 <= offset ks -> offset ks + 120 <= to_int (bufsize ks) ->
   grpmask ks' = grpmask ks /\ offset ks <= offset ks' <= offset ks + 120).

(** The C types of the fields. *)
Definition well_typed (ks : ktrace_state) : Prop :=
  - 2 ^ 31 <= offset ks < 2 ^ 31 /\
  - 2 ^ 31 <= grpmask ks < 2 ^ 31 /\
  0 <= bufsize ks < 2 ^ 32 /\
  0 <= marker ks < 2 ^ 32.

End Ktrace.

(** ** Call sequences *)

(** A call into the trace buffer with everything it gets from outside. *)
Inductive ktrace_call : Type :=
| CallOpen (tag ts tid : Z)
| CallName (tag id arg : Z) (name : memory) (ts tid : Z)
| CallControl (threads : list live_thread) (action options : Z)
| CallReadUser (arch_copy_to_user : Z -> Z -> Z -> Z) (ptr off len : Z).

Definition run_call {hdrs : ktrace_h} (c : ktrace_call) (ks : ktrace_state)
  : ktrace_state :=
  match c with
  | CallOpen tag ts tid => state_of (ktrace_open tag ts tid ks)
  | CallName tag id arg name ts tid => state_of (ktrace_name tag id arg name ts tid ks)
  | CallControl threads action options =>
      state_of (ktrace_control threads action options ks)
  | CallReadUser copy ptr off len => state_of (ktrace_read_user copy ptr off len ks)
  end.

(** The states the trace buffer can be in: [ktrace_init] run once on the
    zero-initialised [KTRACE_STATE], then any calls. *)
Inductive reachable {hdrs : ktrace_h} : ktrace_state -> Prop :=
| reach_init (env : boot_env) :
    reachable (state_of (ktrace_init env KTRACE_STATE))
| reach_call (c : ktrace_call) (ks : ktrace_state) :
    reachable ks -> reachable (run_call c ks).

(** A size query: [ktrace_read_user(NULL, off, len)]. *)
Definition size_query {hdrs : ktrace_h} (ks : ktrace_state) : Z :=
  result (ktrace_read_user (fun _ _ _ => NO_ERROR) 0 0 0 ks).

(** ** A sample instantiation

    Values in the style of the kernel's headers, used to run the model on
    concrete inputs: 16-byte header (tag, tid, ts), 32-byte records, group
    numbers shifted into the tag's top twelve bits. *)
Definition sample_h : ktrace_h := {|
  KTRACE_HDRSIZE := 16;
  KTRACE_RECSIZE := 32;
  KTRACE_VERSION := 131072;
  KTRACE_GRP_ALL := 4095;
  KTRACE_GRP_TO_MASK := fun grp => Z.shiftl grp 20;
  KTRACE_ACTION_START := 1;
  KTRACE_ACTION_STOP := 2;
  KTRACE_ACTION_REWIND := 3;
  TAG_VERSION := 1048576 + 4;
  TAG_TICKS_PER_MS := 1048576 + 512 + 4;
  NO_ERROR := 0;
  ERR_INVALID_ARGS := -10;
  sizeof_ktrace_header_t := 16;
  hdr_ts := 8;
  hdr_tag := 0;
  hdr_tid := 4;
  sizeof_ktrace_rec_32b_t := 32;
  rec_tag := 0;
  rec_a := 16;
  rec_b := 20
|}.

(** An active buffer of capacity 1000 with the cursor at [off]. *)
Definition active_at (off : Z) : ktrace_state :=
  mk_ktrace_state off (to_int 4293918720 (* 0xFFF00000 *)) 1000 0 (fun _ => 0).

(** A buffer that ran full: the cursor is past the capacity of 1000 and
    the group mask has been cleared. *)
Definition exhausted : ktrace_state :=
  mk_ktrace_state 1024 0 1000 0 (fun _ => 0).

(** A stopped buffer of 3 GiB with 2 GiB frozen as readable. *)
Definition stopped_at_2g : ktrace_state :=
  mk_ktrace_state 64 0 3221225216 2147483648 (fun _ => 0).

(** A stopped buffer of capacity 1000, frozen at [m], cursor at [off]. *)
Definition stopped_at (off m : Z) : ktrace_state :=
  mk_ktrace_state off 0 1000 m (fun _ => 0).

(** A tag of group 1 with a length field of four 8-byte units. *)
Definition sample_tag : Z := 1048576 + 4.

(** The name "idle" followed by its terminator. *)
Definition idle_name : memory :=
  fun i => nth (Z.to_nat i) [105; 100; 108; 101] 0.

(** A live thread with that name, id 7. *)
Definition idle_thread : live_thread :=
  mk_live_thread sample_tag 7 0 idle_name 1000 1.

(** A boot with a 1 MiB buffer, all groups enabled and one live thread. *)
Definition sample_boot : boot_env :=
  mk_boot_env 1 4095 0 (fun _ => 0) 1000000 [idle_thread].

(** A boot with tracing switched off on the command line. *)
Definition disabled_boot : boot_env :=
  mk_boot_env 0 4095 0 (fun _ => 0) 1000000 [idle_thread].

(** ** Record layouts

    What the C compiler guarantees of a struct's fields: each lies inside
    the struct and no two overlap. *)

Definition header_fields_inside {hdrs : ktrace_h} : Prop :=
  (0 <= hdr_ts /\ hdr_ts + 8 <= sizeof_ktrace_header_t) /\
  (0 <= hdr_tag /\ hdr_tag + 4 <= sizeof_ktrace_header_t) /\
  (0 <= hdr_tid /\ hdr_tid + 4 <= sizeof_ktrace_header_t).

Definition header_fields_disjoint {hdrs : ktrace_h} : Prop :=
  (hdr_ts + 8 <= hdr_tag \/ hdr_tag + 4 <= hdr_ts) /\
  (hdr_ts + 8 <= hdr_tid \/ hdr_tid + 4 <= hdr_ts) /\
  (hdr_tag + 4 <= hdr_tid \/ hdr_tid + 4 <= hdr_tag).

Definition rec_32b_fields_ordered {hdrs : ktrace_h} : Prop :=
  0 <= rec_tag /\ rec_tag + 4 <= rec_a /\ rec_a + 4 <= rec_b /\
  rec_b + 4 <= sizeof_ktrace_rec_32b_t.

(** ** The state [ktrace_init] sets up

    The buffer with the two metadata records in it, and the state
    [ktrace_init] has reached when it calls the enumeration. *)

Definition with_metadata {hdrs : ktrace_h} (ticks : Z) (m : memory) : memory :=
  store_bytes
    (store_bytes
       (store_bytes
          (store_bytes
             (store_bytes m (0 * sizeof_ktrace_rec_32b_t + rec_tag)
                (le_bytes 4 TAG_VERSION))
             (0 * sizeof_ktrace_rec_32b_t + rec_a) (le_bytes 4 KTRACE_VERSION))
          (1 * sizeof_ktrace_rec_32b_t + rec_tag) (le_bytes 4 TAG_TICKS_PER_MS))
       (1 * sizeof_ktrace_rec_32b_t + rec_a) (le_bytes 4 (to_u32 ticks)))
    (1 * sizeof_ktrace_rec_32b_t + rec_b) (le_bytes 4 (to_u32 (Z.shiftr ticks 32))).

Definition booted {hdrs : ktrace_h} (env : boot_env) : ktrace_state :=
  mk_ktrace_state
    (to_int (KTRACE_RECSIZE * 2))
    (to_int (to_u32 (KTRACE_GRP_TO_MASK (cmdline_grpmask env))))
    (to_u32 (to_u32 (cmdline_bufsize env * (1024 * 1024)) - 256))
    0
    (with_metadata (ticks_per_ms env) (alloc_memory env)).

(** ** Reading the buffer back *)

(** The little-endian value of the [n] bytes of [m] from address [a], as a
    consumer of the trace buffer loads a field. *)
Fixpoint load_le (m : memory) (a : Z) (n : nat) : Z :=
  match n with
  | O => 0
  | S k => m a + 256 * load_le m (a + 1) k
  end.

(** * Properties *)

(** ** Integer conversions *)

Ltac ints :=
  unfold to_u32, to_int, INT_MAX in *;
  change (2 ^ 32) with 4294967296 in *;
  change (2 ^ 31) with 2147483648 in *;
  Z.div_mod_to_equations; lia.

Lemma to_u32_range (x : Z) : 0 <= to_u32 x < 2 ^ 32.
Proof. ints. Qed.

Lemma to_int_range (x : Z) : - 2 ^ 31 <= to_int x < 2 ^ 31.
Proof. ints. Qed.

Lemma to_int_small (x : Z) : - 2 ^ 31 <= x < 2 ^ 31 -> to_int x = x.
Proof. intros. ints. Qed.

Lemma to_u32_small (x : Z) : 0 <= x < 2 ^ 32 -> to_u32 x = x.
Proof. intros. ints. Qed.

Lemma to_int_le (x : Z) : 0 <= x -> to_int x <= x.
Proof. intros. ints. Qed.

Lemma to_u32_nonneg_int (x : Z) : 0 <= x < 2 ^ 31 -> to_u32 x = x.
Proof. intros. ints. Qed.

(** ** Bytes and strings *)

Lemma le_bytes_length (n : nat) (x : Z) : length (le_bytes n x) = n.
Proof.
  revert x. induction n as [|n IH]; intros x; simpl; [ reflexivity | ].
  rewrite IH. reflexivity.
Qed.

Lemma read_bytes_length (src : memory) (n : nat) : length (read_bytes src n) = n.
Proof. unfold read_bytes. rewrite length_map, length_seq. reflexivity. Qed.

Lemma nth_map_seq (f : nat -> Z) (n start k : nat) :
  (k < n)%nat -> nth k (map f (seq start n)) 0 = f (start + k)%nat.
Proof.
  revert start k. induction n as [|n IH]; intros start k Hk; [ lia | ].
  destruct k as [|k]; simpl.
  - rewrite Nat.add_0_r. reflexivity.
  - rewrite IH by lia. f_equal. lia.
Qed.

Lemma read_bytes_nth (src : memory) (n k : nat) :
  (k < n)%nat -> nth k (read_bytes src n) 0 = src (Z.of_nat k).
Proof.
  intros Hk. unfold read_bytes. rewrite nth_map_seq by exact Hk. reflexivity.
Qed.

Lemma read_bytes_ext (s1 s2 : memory) (n : nat) :
  (forall k, 0 <= k < Z.of_nat n -> s1 k = s2 k) ->
  read_bytes s1 n = read_bytes s2 n.
Proof.
  intros Hext. unfold read_bytes. apply map_ext_in.
  intros i Hi. apply in_seq in Hi. apply Hext. lia.
Qed.

Lemma store_bytes_outside (m : memory) (addr : Z) (bs : list Z) (a : Z) :
  a < addr \/ addr + Z.of_nat (length bs) <= a ->
  store_bytes m addr bs a = m a.
Proof.
  intros Hout. unfold store_bytes.
  destruct (Z.leb_spec addr a); destruct (Z.ltb_spec a (addr + Z.of_nat (length bs)));
    simpl; try reflexivity; lia.
Qed.

Lemma store_bytes_inside (m : memory) (addr : Z) (bs : list Z) (a : Z) :
  addr <= a < addr + Z.of_nat (length bs) ->
  store_bytes m addr bs a = nth (Z.to_nat (a - addr)) bs 0.
Proof.
  intros Hin. unfold store_bytes.
  destruct (Z.leb_spec addr a); destruct (Z.ltb_spec a (addr + Z.of_nat (length bs)));
    simpl; try reflexivity; lia.
Qed.

Lemma strnlen_from_range (s : memory) (n : nat) (i : Z) :
  0 <= strnlen_from s i n <= Z.of_nat n.
Proof.
  revert i. induction n as [|n IH]; intros i.
  - simpl. lia.
  - cbn [strnlen_from]. destruct (s i =? 0); [ lia | ].
    specialize (IH (i + 1)). lia.
Qed.

Lemma strnlen_from_nonzero (s : memory) (n : nat) (i k : Z) :
  0 <= k < strnlen_from s i n -> s (i + k) <> 0.
Proof.
  revert i k. induction n as [|n IH]; intros i k Hk.
  - simpl in Hk. lia.
  - cbn [strnlen_from] in Hk.
    destruct (Z.eqb_spec (s i) 0) as [E|N]; [ lia | ].
    destruct (Z.eq_dec k 0) as [K0|Kp].
    + subst k. rewrite Z.add_0_r. exact N.
    + replace (i + k) with (i + 1 + (k - 1)) by lia. apply IH. lia.
Qed.

Lemma strnlen_from_stop (s : memory) (n : nat) (i : Z) :
  strnlen_from s i n < Z.of_nat n -> s (i + strnlen_from s i n) = 0.
Proof.
  revert i. induction n as [|n IH]; intros i Hlt.
  - simpl in Hlt. lia.
  - cbn [strnlen_from] in *.
    destruct (Z.eqb_spec (s i) 0) as [E|N].
    + rewrite Z.add_0_r. exact E.
    + replace (i + (1 + strnlen_from s (i + 1) n))
        with (i + 1 + strnlen_from s (i + 1) n) by lia.
      apply IH. lia.
Qed.

Lemma strnlen_from_ext (s s' : memory) (n : nat) (i : Z) :
  (forall k, 0 <= k < Z.of_nat n -> k <= strnlen_from s i n -> s' (i + k) = s (i + k)) ->
  strnlen_from s' i n = strnlen_from s i n.
Proof.
  revert i. induction n as [|n IH]; intros i Hext; [ reflexivity | ].
  pose proof (strnlen_from_range s (S n) i) as Hr.
  assert (H0 : s' i = s i).
  { specialize (Hext 0). rewrite Z.add_0_r in Hext. apply Hext; lia. }
  cbn [strnlen_from] in *. rewrite H0.
  destruct (Z.eqb_spec (s i) 0) as [E|N]; [ reflexivity | ].
  f_equal. apply IH. intros k Hk Hle.
  replace (i + 1 + k) with (i + (k + 1)) by lia.
  apply Hext; lia.
Qed.

Section Properties.

Context {hdrs : ktrace_h}.

(** ** The control switch *)

Lemma readable_max_le_bufsize (ks : ktrace_state) :
  marker ks <= bufsize ks -> readable_max ks <= bufsize ks.
Proof.
  unfold readable_max. intros Hm.
  destruct (marker ks =? 0); simpl; [ | exact Hm ].
  destruct (Z.gtb_spec (to_u32 (offset ks)) (bufsize ks)); lia.
Qed.

Lemma control_stop_run (threads : list live_thread) (options : Z) (ks : ktrace_state) :
  KTRACE_ACTION_STOP <> KTRACE_ACTION_START ->
  ktrace_control threads KTRACE_ACTION_STOP options ks =
  (NO_ERROR,
   set_marker (Z.min (to_u32 (offset ks)) (bufsize ks)) (set_grpmask 0 ks),
   [EvAtomicStoreGrpmask 0;
    EvStoreMarker (Z.min (to_u32 (offset ks)) (bufsize ks))]).
Proof.
  intros Hne. unfold ktrace_control.
  destruct (Z.eqb_spec KTRACE_ACTION_STOP KTRACE_ACTION_START) as [E|_]; [ contradiction | ].
  rewrite Z.eqb_refl.
  unfold bind, atomic_store_grpmask, get_ks, store_marker, ret; simpl.
  change (to_int 0) with 0.
  destruct (Z.gtb_spec (to_u32 (offset ks)) (bufsize ks)) as [Hgt|Hle].
  - rewrite Z.min_r by lia. reflexivity.
  - rewrite Z.min_l by lia. reflexivity.
Qed.

(** C4 (as amended).  Stop stores 0 into [grpmask] first and then sets
    [marker] to the cursor, read as the [uint32_t] the code reads it
    into, clamped to [bufsize]: after it [grpmask] is 0, [marker] is the
    minimum of that unsigned cursor and [bufsize], which is the minimum
    of [offset] and [bufsize] whenever [offset] is not negative, the
    cursor is where it was and the frozen readable extent does not exceed
    [bufsize]. *)
Theorem stop_freezes_clamped_marker
    (threads : list live_thread) (options : Z) (ks : ktrace_state) :
  KTRACE_ACTION_STOP <> KTRACE_ACTION_START ->
  let r := ktrace_control threads KTRACE_ACTION_STOP options ks in
  let cursor := to_u32 (offset ks) in
  trace_of r = [EvAtomicStoreGrpmask 0; EvStoreMarker (Z.min cursor (bufsize ks))] /\
  grpmask (state_of r) = 0 /\
  marker (state_of r) = Z.min cursor (bufsize (state_of r)) /\
  (0 <= offset ks < 2 ^ 31 ->
   marker (state_of r) = Z.min (offset (state_of r)) (bufsize (state_of r))) /\
  offset (state_of r) = offset ks /\
  bufsize (state_of r) = bufsize ks /\
  readable_max (state_of r) <= bufsize (state_of r).
Proof.
  intros Hne r cursor. subst r cursor.
  rewrite (control_stop_run threads options ks Hne).
  unfold trace_of, state_of; simpl.
  repeat split.
  - intros Hoff. rewrite to_u32_nonneg_int by exact Hoff. reflexivity.
  - pose proof (readable_max_le_bufsize
      (set_marker (Z.min (to_u32 (offset ks)) (bufsize ks)) (set_grpmask 0 ks))) as P.
    simpl in P. apply P. lia.
Qed.

(** C10.  Stop is accepted in every state: it answers [NO_ERROR], and a
    second Stop right after the first leaves offset, grpmask, marker and
    buffer exactly as the first left them. *)
Theorem stop_idempotent
    (threads threads' : list live_thread) (options options' : Z) (ks : ktrace_state) :
  KTRACE_ACTION_STOP <> KTRACE_ACTION_START ->
  let once := ktrace_control threads KTRACE_ACTION_STOP options ks in
  let twice := ktrace_control threads' KTRACE_ACTION_STOP options' (state_of once) in
  result once = NO_ERROR /\
  result twice = NO_ERROR /\
  state_of twice = state_of once.
Proof.
  intros Hne once twice. subst once twice.
  rewrite (control_stop_run threads' options' _ Hne).
  rewrite (control_stop_run threads options ks Hne).
  unfold result, state_of; simpl.
  repeat split.
Qed.

(** C6.  An action code that is none of Start, Stop and Rewind is answered
    with [ERR_INVALID_ARGS]; nothing is stored and the state (offset,
    grpmask, marker, buffer) is the one before the call. *)
Theorem control_unknown_action
    (threads : list live_thread) (action options : Z) (ks : ktrace_state) :
  action <> KTRACE_ACTION_START ->
  action <> KTRACE_ACTION_STOP ->
  action <> KTRACE_ACTION_REWIND ->
  ktrace_control threads action options ks = (ERR_INVALID_ARGS, ks, []).
Proof.
  intros H1 H2 H3. unfold ktrace_control.
  destruct (Z.eqb_spec action KTRACE_ACTION_START); [ contradiction | ].
  destruct (Z.eqb_spec action KTRACE_ACTION_STOP); [ contradiction | ].
  destruct (Z.eqb_spec action KTRACE_ACTION_REWIND); [ contradiction | ].
  reflexivity.
Qed.

(** ** The gate and the allocator *)

Lemma ktrace_open_closed (tag ts tid : Z) (ks : ktrace_state) :
  Z.land tag (to_u32 (grpmask ks)) = 0 ->
  ktrace_open tag ts tid ks = (None, ks, []).
Proof.
  intros Hgate. unfold ktrace_open, bind, get_ks.
  rewrite Hgate. reflexivity.
Qed.

Lemma ktrace_open_full (tag ts tid : Z) (ks : ktrace_state) :
  Z.land tag (to_u32 (grpmask ks)) <> 0 ->
  offset ks >= to_int (bufsize ks) ->
  ktrace_open tag ts tid ks =
  (None,
   set_grpmask 0 (set_offset (to_int (offset ks + KTRACE_LEN tag)) ks),
   [EvAtomicAddOffset (KTRACE_LEN tag); EvAtomicStoreGrpmask 0]).
Proof.
  intros Hgate Hfull. unfold ktrace_open, bind, get_ks.
  destruct (Z.eqb_spec (Z.land tag (to_u32 (grpmask ks))) 0) as [E|_]; [ contradiction | ].
  unfold atomic_add_offset.
  destruct (Z.geb_spec (offset ks) (to_int (bufsize ks))) as [_|Hlt]; [ | lia ].
  reflexivity.
Qed.

Lemma ktrace_open_slot (tag ts tid : Z) (ks : ktrace_state) :
  Z.land tag (to_u32 (grpmask ks)) <> 0 ->
  offset ks < to_int (bufsize ks) ->
  ktrace_open tag ts tid ks =
  (Some (offset ks + sizeof_ktrace_header_t),
   set_buffer (with_header (offset ks) tag ts tid (buffer ks))
     (set_offset (to_int (offset ks + KTRACE_LEN tag)) ks),
   [EvAtomicAddOffset (KTRACE_LEN tag);
    EvWrite (offset ks + hdr_ts) (le_bytes 8 ts);
    EvWrite (offset ks + hdr_tag) (le_bytes 4 tag);
    EvWrite (offset ks + hdr_tid) (le_bytes 4 (to_u32 tid))]).
Proof.
  intros Hgate Hroom. unfold ktrace_open, bind, get_ks.
  destruct (Z.eqb_spec (Z.land tag (to_u32 (grpmask ks))) 0) as [E|_]; [ contradiction | ].
  unfold atomic_add_offset.
  destruct (Z.geb_spec (offset ks) (to_int (bufsize ks))) as [Hge|_]; [ lia | ].
  reflexivity.
Qed.

(** C8.  A tag that shares no bit with [grpmask] gets no slot, and the
    call does nothing else: no fetch-and-add, no store, the state is the
    one before the call.  That is so for every tag once exhaustion has
    cleared [grpmask] to 0, and then a name record is a no-op as well. *)
Theorem open_gate_rejects_without_effect (tag ts tid : Z) (ks : ktrace_state) :
  Z.land tag (to_u32 (grpmask ks)) = 0 ->
  ktrace_open tag ts tid ks = (None, ks, []) /\
  (grpmask ks = 0 ->
   forall tag' id arg name,
     ktrace_open tag' ts tid ks = (None, ks, []) /\
     ktrace_name tag' id arg name ts tid ks = (tt, ks, [])).
Proof.
  intros Hgate. split.
  - apply ktrace_open_closed. exact Hgate.
  - intros Hoff tag' id arg name.
    assert (Hall : forall t, Z.land t (to_u32 (grpmask ks)) = 0).
    { intros t. rewrite Hoff. apply Z.land_0_r. }
    split.
    + apply ktrace_open_closed. apply Hall.
    + unfold ktrace_name, bind.
      rewrite (ktrace_open_closed _ ts tid ks (Hall _)). reflexivity.
Qed.

(** C1 (as amended).  A call that passes the gate advances the cursor by
    the record length with one fetch-and-add.  What decides is the value
    before the addition, the candidate slot start itself: if it is at or
    beyond [bufsize] (compared as [int]s) the call clears [grpmask] to 0
    and returns no slot, the buffer untouched; otherwise the slot starts
    there: the header is written at that offset, the pointer just past the
    header is returned and [grpmask] is left as it was. *)
Theorem open_allocates_at_cursor (tag ts tid : Z) (ks : ktrace_state) :
  Z.land tag (to_u32 (grpmask ks)) <> 0 ->
  let r := ktrace_open tag ts tid ks in
  offset (state_of r) = to_int (offset ks + KTRACE_LEN tag) /\
  (offset ks >= to_int (bufsize ks) ->
   result r = None /\
   grpmask (state_of r) = 0 /\
   buffer (state_of r) = buffer ks /\
   trace_of r = [EvAtomicAddOffset (KTRACE_LEN tag); EvAtomicStoreGrpmask 0]) /\
  (offset ks < to_int (bufsize ks) ->
   result r = Some (offset ks + sizeof_ktrace_header_t) /\
   grpmask (state_of r) = grpmask ks /\
   buffer (state_of r) = with_header (offset ks) tag ts tid (buffer ks) /\
   trace_of r =
     [EvAtomicAddOffset (KTRACE_LEN tag);
      EvWrite (offset ks + hdr_ts) (le_bytes 8 ts);
      EvWrite (offset ks + hdr_tag) (le_bytes 4 tag);
      EvWrite (offset ks + hdr_tid) (le_bytes 4 (to_u32 tid))]).
Proof.
  intros Hgate r. subst r.
  destruct (Z_lt_ge_dec (offset ks) (to_int (bufsize ks))) as [Hroom|Hfull].
  - rewrite (ktrace_open_slot tag ts tid ks Hgate Hroom).
    unfold result, state_of, trace_of; simpl.
    split; [ reflexivity | ]. split; [ lia | ].
    intros _. repeat split.
  - rewrite (ktrace_open_full tag ts tid ks Hgate Hfull).
    unfold result, state_of, trace_of; simpl.
    split; [ reflexivity | ]. split; [ | lia ].
    intros _. repeat split.
Qed.

(** ** Rewind and the size query *)

Lemma size_query_eq (ks : ktrace_state) : size_query ks = to_int (readable_max ks).
Proof. reflexivity. Qed.

Lemma control_rewind_run (threads : list live_thread) (options : Z) (ks : ktrace_state) :
  KTRACE_ACTION_REWIND <> KTRACE_ACTION_START ->
  KTRACE_ACTION_REWIND <> KTRACE_ACTION_STOP ->
  ktrace_control threads KTRACE_ACTION_REWIND options ks =
  (NO_ERROR,
   set_offset (to_int (KTRACE_RECSIZE * 2)) ks,
   [EvAtomicStoreOffset (to_int (KTRACE_RECSIZE * 2))]).
Proof.
  intros H1 H2. unfold ktrace_control.
  destruct (Z.eqb_spec KTRACE_ACTION_REWIND KTRACE_ACTION_START); [ contradiction | ].
  destruct (Z.eqb_spec KTRACE_ACTION_REWIND KTRACE_ACTION_STOP); [ contradiction | ].
  rewrite Z.eqb_refl. reflexivity.
Qed.

(** C3 (as amended).  Rewind stores the size of the two reserved metadata
    slots into [offset] with one atomic store and leaves [grpmask],
    [marker], [bufsize] and the buffer as they were.  A size query right
    after it answers, converted to [int], [marker] when [marker] is not 0
    and otherwise that size clamped to [bufsize]: [marker] itself when it
    is not 0 and at most [INT_MAX], and exactly the size of the two slots
    when tracing is not frozen ([marker] is 0) and the buffer holds
    them. *)
Theorem rewind_resets_cursor
    (threads : list live_thread) (options : Z) (ks : ktrace_state) :
  KTRACE_ACTION_REWIND <> KTRACE_ACTION_START ->
  KTRACE_ACTION_REWIND <> KTRACE_ACTION_STOP ->
  0 <= KTRACE_RECSIZE * 2 < 2 ^ 31 ->
  let r := ktrace_control threads KTRACE_ACTION_REWIND options ks in
  result r = NO_ERROR /\
  trace_of r = [EvAtomicStoreOffset (KTRACE_RECSIZE * 2)] /\
  offset (state_of r) = KTRACE_RECSIZE * 2 /\
  grpmask (state_of r) = grpmask ks /\
  marker (state_of r) = marker ks /\
  bufsize (state_of r) = bufsize ks /\
  buffer (state_of r) = buffer ks /\
  size_query (state_of r) =
    to_int (if negb (marker ks =? 0) then marker ks
            else Z.min (KTRACE_RECSIZE * 2) (bufsize ks)) /\
  (marker ks = 0 -> KTRACE_RECSIZE * 2 <= bufsize ks ->
   size_query (state_of r) = KTRACE_RECSIZE * 2) /\
  (marker ks <> 0 -> 0 <= marker ks <= INT_MAX ->
   size_query (state_of r) = marker ks).
Proof.
  intros H1 H2 Hsz r. subst r.
  rewrite (control_rewind_run threads options ks H1 H2).
  assert (Hi : to_int (KTRACE_RECSIZE * 2) = KTRACE_RECSIZE * 2)
    by (apply to_int_small; lia).
  assert (Hu : to_u32 (KTRACE_RECSIZE * 2) = KTRACE_RECSIZE * 2)
    by (apply to_u32_nonneg_int; lia).
  assert (Hq : size_query (set_offset (to_int (KTRACE_RECSIZE * 2)) ks) =
               to_int (if negb (marker ks =? 0) then marker ks
                       else Z.min (KTRACE_RECSIZE * 2) (bufsize ks))).
  { rewrite size_query_eq. unfold readable_max. simpl.
    destruct (marker ks =? 0); simpl; [ | reflexivity ].
    rewrite Hi, Hu.
    destruct (Z.gtb_spec (KTRACE_RECSIZE * 2) (bufsize ks)).
    - rewrite Z.min_r by lia. reflexivity.
    - rewrite Z.min_l by lia. reflexivity. }
  unfold result, state_of, trace_of. simpl fst; simpl snd.
  rewrite Hq. rewrite Hi. simpl.
  repeat split.
  - intros Hm Hfit. rewrite Hm. simpl. rewrite Z.min_l by lia. exact Hi.
  - intros Hm Hfit.
    destruct (Z.eqb_spec (marker ks) 0); [ contradiction | ].
    simpl. apply to_int_small. unfold INT_MAX in Hfit. lia.
Qed.

(** ** The read-out path *)

Lemma readable_max_spec (ks : ktrace_state) : readable_max ks = spec_extent ks.
Proof.
  unfold readable_max, spec_extent.
  destruct (marker ks =? 0); simpl; [ | reflexivity ].
  destruct (Z.gtb_spec (to_u32 (offset ks)) (bufsize ks)).
  - rewrite Z.min_r by lia. reflexivity.
  - rewrite Z.min_l by lia. reflexivity.
Qed.

Lemma read_user_null (copy : Z -> Z -> Z -> Z) (off len : Z) (ks : ktrace_state) :
  ktrace_read_user copy 0 off len ks = (to_int (readable_max ks), ks, []).
Proof. reflexivity. Qed.

Lemma read_user_past_extent (copy : Z -> Z -> Z -> Z) (ptr off len : Z) (ks : ktrace_state) :
  ptr <> 0 -> off >= readable_max ks ->
  ktrace_read_user copy ptr off len ks = (0, ks, []).
Proof.
  intros Hp Hoff. unfold ktrace_read_user, bind, get_ks.
  destruct (Z.eqb_spec ptr 0); [ contradiction | ].
  destruct (Z.geb_spec off (readable_max ks)); [ reflexivity | lia ].
Qed.

Lemma read_user_copy (copy : Z -> Z -> Z -> Z) (ptr off len : Z) (ks : ktrace_state) :
  ptr <> 0 -> off < readable_max ks ->
  ktrace_read_user copy ptr off len ks =
  (let n := Z.min len (readable_max ks - off) in
   (if negb (copy ptr off n =? NO_ERROR) then ERR_INVALID_ARGS else to_int n,
    ks, [EvCopyToUser ptr off n])).
Proof.
  intros Hp Hoff. unfold ktrace_read_user, bind, get_ks.
  destruct (Z.eqb_spec ptr 0); [ contradiction | ].
  destruct (Z.geb_spec off (readable_max ks)); [ lia | ].
  unfold call_copy_to_user, ret.
  destruct (Z.gtb_spec len (readable_max ks - off)).
  - rewrite Z.min_r by lia.
    destruct (negb (copy ptr off (readable_max ks - off) =? NO_ERROR)); reflexivity.
  - rewrite Z.min_l by lia.
    destruct (negb (copy ptr off len =? NO_ERROR)); reflexivity.
Qed.

(** C2 (as amended).  The readable extent is [marker] when that is not
    zero and otherwise the cursor (read as [uint32_t]) clamped to
    [bufsize].  A read at or past the extent answers 0 and copies nothing.
    A read below it asks [arch_copy_to_user] for exactly
    [min len (extent - off)] bytes from [off]; if the copy fails the
    answer is [ERR_INVALID_ARGS], which is not 0; if it succeeds the answer
    is that count converted to [int], hence the count itself whenever it
    is at most [INT_MAX]. *)
Theorem read_user_clamps_to_extent
    (copy : Z -> Z -> Z -> Z) (ptr off len : Z) (ks : ktrace_state) :
  ERR_INVALID_ARGS <> 0 ->
  ptr <> 0 ->
  0 <= len ->
  let r := ktrace_read_user copy ptr off len ks in
  readable_max ks = spec_extent ks /\
  (0 <= offset ks < 2 ^ 31 -> marker ks = 0 ->
   spec_extent ks = Z.min (offset ks) (bufsize ks)) /\
  (off >= spec_extent ks -> r = (0, ks, [])) /\
  (off < spec_extent ks ->
   let n := Z.min len (spec_extent ks - off) in
   state_of r = ks /\
   trace_of r = [EvCopyToUser ptr off n] /\
   (copy ptr off n <> NO_ERROR ->
    result r = ERR_INVALID_ARGS /\ result r <> 0) /\
   (copy ptr off n = NO_ERROR ->
    result r = to_int n /\ (n <= INT_MAX -> result r = n))).
Proof.
  intros Herr Hp Hlen r. subst r.
  rewrite <- readable_max_spec.
  split; [ reflexivity | ].
  split.
  { intros Hoff Hm. rewrite readable_max_spec. unfold spec_extent.
    rewrite Hm, (to_u32_nonneg_int _ Hoff). reflexivity. }
  split.
  - intros Hoff. apply read_user_past_extent; assumption.
  - intros Hoff n. subst n.
    rewrite (read_user_copy copy ptr off len ks Hp Hoff).
    unfold result, state_of, trace_of. simpl.
    split; [ reflexivity | ]. split; [ reflexivity | ].
    split.
    + intros Hfail.
      destruct (Z.eqb_spec (copy ptr off (Z.min len (readable_max ks - off))) NO_ERROR);
        [ contradiction | ].
      simpl. split; [ reflexivity | exact Herr ].
    + intros Hok. rewrite Hok, Z.eqb_refl. simpl.
      split; [ reflexivity | ].
      intros Hfit. apply to_int_small. unfold INT_MAX in Hfit. lia.
Qed.

(** ** What the emitters leave alone *)

Lemma KTRACE_LEN_range (tag : Z) : 0 <= KTRACE_LEN tag <= 120.
Proof.
  unfold KTRACE_LEN. rewrite Z.shiftl_mul_pow2 by lia.
  change 15 with (Z.ones 4). rewrite Z.land_ones by lia.
  change (2 ^ 3) with 8. change (2 ^ 4) with 16.
  Z.div_mod_to_equations; lia.
Qed.

Lemma KTRACE_LEN_multiple (tag : Z) : KTRACE_LEN tag mod 8 = 0.
Proof.
  unfold KTRACE_LEN. rewrite Z.shiftl_mul_pow2 by lia.
  change (2 ^ 3) with 8. apply Z.mod_mul. lia.
Qed.

(** The three ways [ktrace_open] can go. *)
Lemma ktrace_open_cases (tag ts tid : Z) (ks : ktrace_state) :
  ktrace_open tag ts tid ks = (None, ks, []) \/
  (offset ks >= to_int (bufsize ks) /\
   ktrace_open tag ts tid ks =
   (None,
    set_grpmask 0 (set_offset (to_int (offset ks + KTRACE_LEN tag)) ks),
    [EvAtomicAddOffset (KTRACE_LEN tag); EvAtomicStoreGrpmask 0])) \/
  (offset ks < to_int (bufsize ks) /\
   ktrace_open tag ts tid ks =
   (Some (offset ks + sizeof_ktrace_header_t),
    set_buffer (with_header (offset ks) tag ts tid (buffer ks))
      (set_offset (to_int (offset ks + KTRACE_LEN tag)) ks),
    [EvAtomicAddOffset (KTRACE_LEN tag);
     EvWrite (offset ks + hdr_ts) (le_bytes 8 ts);
     EvWrite (offset ks + hdr_tag) (le_bytes 4 tag);
     EvWrite (offset ks + hdr_tid) (le_bytes 4 (to_u32 tid))])).
Proof.
  destruct (Z.eq_dec (Z.land tag (to_u32 (grpmask ks))) 0) as [Hc|Ho].
  - left. apply ktrace_open_closed. exact Hc.
  - destruct (Z_lt_ge_dec (offset ks) (to_int (bufsize ks))) as [Hroom|Hfull].
    + right; right. split; [ exact Hroom | ].
      apply ktrace_open_slot; assumption.
    + right; left. split; [ exact Hfull | ].
      apply ktrace_open_full; assumption.
Qed.

Lemma emitted_refl (ks : ktrace_state) : emitted ks ks.
Proof. unfold emitted. repeat split; auto; lia. Qed.

Lemma to_int_advance (off n bound : Z) :
  - 2 ^ 31 <= off -> off + 120 <= to_int bound -> 0 <= n <= 120 ->
  off <= to_int (off + n) <= off + 120.
Proof.
  intros Hlo Hhi Hn. pose proof (to_int_range bound) as Hb.
  rewrite to_int_small.
  - lia.
  - change (2 ^ 31) with 2147483648 in *. lia.
Qed.

Lemma ktrace_open_emitted (tag ts tid : Z) (ks : ktrace_state) :
  emitted ks (state_of (ktrace_open tag ts tid ks)).
Proof.
  destruct (ktrace_open_cases tag ts tid ks) as [E|[[Hfull E]|[Hroom E]]];
    rewrite E; unfold state_of; simpl.
  - apply emitted_refl.
  - unfold emitted; simpl. repeat split; auto; lia.
  - unfold emitted; simpl. repeat split; auto;
      apply (to_int_advance _ _ (bufsize ks)); auto using KTRACE_LEN_range.
Qed.

Lemma ktrace_name_emitted (tag id arg : Z) (name : memory) (ts tid : Z)
    (ks : ktrace_state) :
  emitted ks (state_of (ktrace_name tag id arg name ts tid ks)).
Proof.
  pose proof (ktrace_open_emitted (name_tag tag (strnlen name 31)) ts tid ks) as Ho.
  unfold ktrace_name, bind.
  destruct (ktrace_open (name_tag tag (strnlen name 31)) ts tid ks) as [[rec ks1] t1].
  unfold state_of in *; simpl in Ho.
  destruct rec as [rec|]; simpl; exact Ho.
Qed.

Lemma report_names_frozen (threads : list live_thread) (ks : ktrace_state) :
  let ks' := state_of (report_names threads ks) in
  bufsize ks' = bufsize ks /\
  marker ks' = marker ks /\
  (grpmask ks' = grpmask ks \/ grpmask ks' = 0).
Proof.
  revert ks. induction threads as [|t rest IH]; intros ks; simpl.
  - unfold state_of; simpl. auto.
  - pose proof (ktrace_name_emitted (lt_tag t) (lt_id t) (lt_arg t) (lt_name t)
                  (lt_ts t) (lt_tid t) ks) as He.
    unfold bind.
    destruct (ktrace_name (lt_tag t) (lt_id t) (lt_arg t) (lt_name t)
                (lt_ts t) (lt_tid t) ks) as [[u ks1] t1].
    specialize (IH ks1).
    destruct (report_names rest ks1) as [[u2 ks2] t2].
    unfold state_of, emitted in *; simpl in *.
    destruct He as (Hb & Hm & Hg & _). destruct IH as (Hb2 & Hm2 & Hg2).
    repeat split; try congruence.
    destruct Hg2 as [Hg2|Hg2]; [ | right; exact Hg2 ].
    destruct Hg as [Hg|Hg]; [ left | right ]; congruence.
Qed.


(** ** Start *)

Lemma control_start_run (threads : list live_thread) (options : Z) (ks : ktrace_state) :
  ktrace_control threads KTRACE_ACTION_START options ks =
  (NO_ERROR,
   state_of (report_names threads (armed options ks)),
   EvStoreMarker 0 :: EvAtomicStoreGrpmask (to_int (start_mask options))
     :: EvReportLiveThreads :: trace_of (report_names threads (armed options ks))).
Proof.
  unfold ktrace_control. rewrite Z.eqb_refl.
  unfold bind, store_marker, atomic_store_grpmask, ktrace_report_live_threads, bind, ret.
  fold (start_mask options). fold (armed options ks).
  destruct (report_names threads (armed options ks)) as [[u ks'] t].
  unfold state_of, trace_of. simpl. rewrite app_nil_r. reflexivity.
Qed.



(** ** Reachable states *)

Lemma control_keeps_marker_low
    (threads : list live_thread) (action options : Z) (ks : ktrace_state) :
  0 <= marker ks <= bufsize ks ->
  let ks' := state_of (ktrace_control threads action options ks) in
  0 <= marker ks' <= bufsize ks'.
Proof.
  intros Hinv ks'. subst ks'.
  destruct (Z.eq_dec action KTRACE_ACTION_START) as [Es|Ns].
  { subst action. rewrite control_start_run.
    pose proof (report_names_frozen threads (armed options ks)) as (Hb & Hm & _).
    unfold state_of in *. cbn [fst snd] in *.
    rewrite Hb, Hm. simpl. lia. }
  unfold ktrace_control.
  destruct (Z.eqb_spec action KTRACE_ACTION_START); [ contradiction | ].
  destruct (action =? KTRACE_ACTION_STOP).
  { unfold bind, atomic_store_grpmask, get_ks, store_marker, ret, state_of.
    pose proof (to_u32_range (offset ks)) as Hu.
    cbn [fst snd set_grpmask offset bufsize].
    destruct (Z.gtb_spec (to_u32 (offset ks)) (bufsize ks)); cbn; lia. }
  destruct (action =? KTRACE_ACTION_REWIND).
  { unfold state_of, bind, atomic_store_offset, ret. cbn. exact Hinv. }
  unfold state_of, ret. cbn. exact Hinv.
Qed.

Lemma init_keeps_marker_low (env : boot_env) (ks : ktrace_state) :
  ks = state_of (ktrace_init env KTRACE_STATE) ->
  0 <= marker ks <= bufsize ks.
Proof.
  intros Hks. unfold ktrace_init in Hks.
  destruct (cmdline_bufsize env =? 0); [ subst ks; cbn; lia | ].
  set (mb := to_u32 (cmdline_bufsize env * (1024 * 1024))) in Hks.
  pose proof (to_u32_range (mb - 256)) as Hsz.
  unfold bind at 1 in Hks. unfold call_alloc in Hks. cbv beta iota zeta in Hks.
  destruct (alloc_status env <? 0); [ subst ks; cbn; lia | ].
  unfold bind, store_bufsize, write_u32, write_bytes, atomic_store_offset,
    atomic_store_grpmask, ktrace_report_live_threads, bind in Hks.
  match type of Hks with
  | context [report_names ?ts ?st] =>
      pose proof (report_names_frozen ts st) as (Hb & Hm & _);
      destruct (report_names ts st) as [[u ks'] t]
  end.
  unfold state_of in *. cbn [fst snd] in *. subst ks.
  rewrite Hb, Hm. cbn [bufsize marker set_grpmask set_offset set_buffer set_bufsize
                        KTRACE_STATE].
  lia.
Qed.

Lemma reachable_marker_low (ks : ktrace_state) :
  reachable ks -> 0 <= marker ks <= bufsize ks.
Proof.
  induction 1 as [env | c ks Hreach IH].
  - apply (init_keeps_marker_low env). reflexivity.
  - destruct c as [tag ts tid | tag id arg name ts tid
                  | threads action options | copy ptr off len];
      unfold run_call.
    + destruct (ktrace_open_emitted tag ts tid ks) as (Hb & Hm & _).
      rewrite Hb, Hm. exact IH.
    + destruct (ktrace_name_emitted tag id arg name ts tid ks) as (Hb & Hm & _).
      rewrite Hb, Hm. exact IH.
    + apply control_keeps_marker_low. exact IH.
    + unfold ktrace_read_user, bind, get_ks, call_copy_to_user, ret.
      destruct (ptr =? 0); [ exact IH | ].
      destruct (off >=? readable_max ks); [ exact IH | ].
      match goal with
      | |- context [negb ?b] => destruct (negb b)
      end; exact IH.
Qed.

(** C9.  In every state reached from initialization by calls of
    [ktrace_open], [ktrace_name], [ktrace_control] and [ktrace_read_user],
    [marker] is at most [bufsize], and a size query (a read with the null
    destination, whatever its other arguments) answers at most [bufsize],
    through [marker] as well as through the clamped cursor. *)
Theorem reachable_marker_within_bufsize (ks : ktrace_state) :
  reachable ks ->
  marker ks <= bufsize ks /\
  forall (copy : Z -> Z -> Z -> Z) (off len : Z),
    result (ktrace_read_user copy 0 off len ks) <= bufsize ks.
Proof.
  intros Hreach. pose proof (reachable_marker_low ks Hreach) as Hinv.
  split; [ lia | ].
  intros copy off len. rewrite read_user_null. unfold result; simpl.
  pose proof (readable_max_le_bufsize ks ltac:(lia)) as Hmax.
  assert (0 <= readable_max ks).
  { unfold readable_max. pose proof (to_u32_range (offset ks)).
    destruct (marker ks =? 0); simpl; [ | lia ].
    destruct (to_u32 (offset ks) >? bufsize ks); lia. }
  pose proof (to_int_le (readable_max ks)). lia.
Qed.

(** ** Name records *)

Lemma name_tag_length (tag len : Z) :
  0 <= KTRACE_HDRSIZE <= 80 -> 0 <= len <= 31 ->
  KTRACE_LEN (name_tag tag len) = 8 * ((KTRACE_HDRSIZE + 8 + len + 1 + 7) / 8).
Proof.
  intros Hh Hl. unfold KTRACE_LEN, name_tag.
  rewrite to_u32_small by (change (2 ^ 32) with 4294967296; lia).
  rewrite Z.shiftr_div_pow2 by lia. change (2 ^ 3) with 8.
  set (k := (KTRACE_HDRSIZE + 8 + len + 1 + 7) / 8).
  assert (Hk : 0 <= k < 16) by (subst k; Z.div_mod_to_equations; lia).
  rewrite Z.land_lor_distr_l, <- Z.land_assoc.
  change (Z.land 4294967280 15) with 0. rewrite Z.land_0_r, Z.lor_0_l.
  change 15 with (Z.ones 4). rewrite Z.land_ones by lia.
  rewrite Z.mod_small by (change (2 ^ 4) with 16; lia).
  rewrite Z.shiftl_mul_pow2 by lia. change (2 ^ 3) with 8. lia.
Qed.

Lemma ktrace_name_no_slot (tag id arg : Z) (name : memory) (ts tid : Z)
    (ks : ktrace_state) :
  result (ktrace_open (name_tag tag (strnlen name 31)) ts tid ks) = None ->
  buffer (state_of (ktrace_name tag id arg name ts tid ks)) = buffer ks.
Proof.
  intros Hnone. unfold ktrace_name, bind.
  destruct (ktrace_open_cases (name_tag tag (strnlen name 31)) ts tid ks)
    as [E|[[_ E]|[_ E]]]; rewrite E in *; try reflexivity.
  unfold result in Hnone; simpl in Hnone. discriminate.
Qed.

Lemma ktrace_name_slot (tag id arg : Z) (name : memory) (ts tid : Z)
    (ks : ktrace_state) :
  let len := strnlen name 31 in
  Z.land (name_tag tag len) (to_u32 (grpmask ks)) <> 0 ->
  offset ks < to_int (bufsize ks) ->
  buffer (state_of (ktrace_name tag id arg name ts tid ks)) =
  with_name_record (offset ks + sizeof_ktrace_header_t) id arg name len
    (with_header (offset ks) (name_tag tag len) ts tid (buffer ks)).
Proof.
  intros len Hgate Hroom. subst len. unfold ktrace_name, bind.
  rewrite (ktrace_open_slot _ ts tid ks Hgate Hroom).
  reflexivity.
Qed.

Lemma ktrace_name_reads_prefix (tag id arg : Z) (name name' : memory) (ts tid : Z)
    (ks : ktrace_state) :
  (forall i, 0 <= i < 31 -> i <= strnlen name 31 -> name' i = name i) ->
  ktrace_name tag id arg name' ts tid ks = ktrace_name tag id arg name ts tid ks.
Proof.
  intros Hsame.
  pose proof (strnlen_from_range name 31 0) as Hr. fold (strnlen name 31) in Hr.
  assert (Hlen : strnlen name' 31 = strnlen name 31).
  { unfold strnlen in *. apply strnlen_from_ext. intros k Hk Hle.
    change (Z.of_nat 31) with 31 in Hk. apply Hsame; lia. }
  assert (Hbytes : read_bytes name' (Z.to_nat (strnlen name 31)) =
                   read_bytes name (Z.to_nat (strnlen name 31))).
  { apply read_bytes_ext. intros k Hk. apply Hsame; lia. }
  unfold ktrace_name, memcpy. rewrite Hlen, Hbytes. reflexivity.
Qed.

End Properties.

(** * The model at work

    The theorems above applied to the sample instantiation, and the inputs
    at which the claims that had to be amended fail as first stated. *)

(** Stop on an active buffer whose cursor overran the capacity. *)
Lemma stop_freezes_clamped_marker_witness :
  @KTRACE_ACTION_STOP sample_h <> @KTRACE_ACTION_START sample_h /\
  grpmask (state_of (@ktrace_control sample_h [] 2 0 (active_at 1024))) = 0 /\
  marker (state_of (@ktrace_control sample_h [] 2 0 (active_at 1024))) = 1000.
Proof.
  assert (Hne : @KTRACE_ACTION_STOP sample_h <> @KTRACE_ACTION_START sample_h) by (simpl; lia).
  split; [ exact Hne | ].
  destruct (@stop_freezes_clamped_marker sample_h [] 0 (active_at 1024) Hne)
    as (_ & Hg & Hm & _).
  split; [ exact Hg | exact Hm ].
Defined.

Lemma stop_idempotent_witness :
  @KTRACE_ACTION_STOP sample_h <> @KTRACE_ACTION_START sample_h /\
  state_of (@ktrace_control sample_h [idle_thread] 2 5
              (state_of (@ktrace_control sample_h [] 2 0 (active_at 352)))) =
  state_of (@ktrace_control sample_h [] 2 0 (active_at 352)).
Proof.
  assert (Hne : @KTRACE_ACTION_STOP sample_h <> @KTRACE_ACTION_START sample_h) by (simpl; lia).
  split; [ exact Hne | ].
  destruct (@stop_idempotent sample_h [] [idle_thread] 0 5 (active_at 352) Hne)
    as (_ & _ & Hsame).
  exact Hsame.
Defined.

Lemma control_unknown_action_witness :
  7 <> @KTRACE_ACTION_START sample_h /\
  7 <> @KTRACE_ACTION_STOP sample_h /\
  7 <> @KTRACE_ACTION_REWIND sample_h /\
  @ktrace_control sample_h [idle_thread] 7 0 (active_at 352) = (-10, active_at 352, []).
Proof.
  assert (H1 : 7 <> @KTRACE_ACTION_START sample_h) by (simpl; lia).
  assert (H2 : 7 <> @KTRACE_ACTION_STOP sample_h) by (simpl; lia).
  assert (H3 : 7 <> @KTRACE_ACTION_REWIND sample_h) by (simpl; lia).
  repeat (split; [ assumption | ]).
  exact (@control_unknown_action sample_h [idle_thread] 7 0 (active_at 352) H1 H2 H3).
Defined.

Lemma open_gate_rejects_without_effect_witness :
  Z.land sample_tag (to_u32 (grpmask exhausted)) = 0 /\
  @ktrace_open sample_h sample_tag 1000 1 exhausted = (None, exhausted, []).
Proof.
  assert (Hg : Z.land sample_tag (to_u32 (grpmask exhausted)) = 0) by reflexivity.
  split; [ exact Hg | ].
  exact (proj1 (@open_gate_rejects_without_effect sample_h sample_tag 1000 1 exhausted Hg)).
Defined.

Lemma open_allocates_at_cursor_witness :
  Z.land sample_tag (to_u32 (grpmask (active_at 64))) <> 0 /\
  offset (state_of (@ktrace_open sample_h sample_tag 1000 1 (active_at 64))) = 96.
Proof.
  assert (Hg : Z.land sample_tag (to_u32 (grpmask (active_at 64))) <> 0)
    by (vm_compute; lia).
  split; [ exact Hg | ].
  exact (proj1 (@open_allocates_at_cursor sample_h sample_tag 1000 1 (active_at 64) Hg)).
Defined.

Lemma rewind_resets_cursor_witness :
  @KTRACE_ACTION_REWIND sample_h <> @KTRACE_ACTION_START sample_h /\
  @KTRACE_ACTION_REWIND sample_h <> @KTRACE_ACTION_STOP sample_h /\
  0 <= @KTRACE_RECSIZE sample_h * 2 < 2 ^ 31 /\
  @size_query sample_h (state_of (@ktrace_control sample_h [] 3 0 (active_at 352))) = 64.
Proof.
  assert (H1 : @KTRACE_ACTION_REWIND sample_h <> @KTRACE_ACTION_START sample_h) by (simpl; lia).
  assert (H2 : @KTRACE_ACTION_REWIND sample_h <> @KTRACE_ACTION_STOP sample_h) by (simpl; lia).
  assert (H3 : 0 <= @KTRACE_RECSIZE sample_h * 2 < 2 ^ 31) by (simpl; lia).
  repeat (split; [ assumption | ]).
  destruct (@rewind_resets_cursor sample_h [] 0 (active_at 352) H1 H2 H3)
    as (_ & _ & _ & _ & _ & _ & _ & _ & Hq & _).
  apply Hq; simpl; lia.
Defined.

Lemma read_user_clamps_to_extent_witness :
  @ERR_INVALID_ARGS sample_h <> 0 /\
  4096 <> 0 /\
  0 <= 500 /\
  trace_of (@ktrace_read_user sample_h (fun _ _ _ => 0) 4096 300 500 (stopped_at 352 352)) =
    [EvCopyToUser 4096 300 52].
Proof.
  assert (H1 : @ERR_INVALID_ARGS sample_h <> 0) by (simpl; lia).
  assert (H2 : 4096 <> 0) by lia.
  assert (H3 : 0 <= 500) by lia.
  repeat (split; [ assumption | ]).
  destruct (@read_user_clamps_to_extent sample_h (fun _ _ _ => 0) 4096 300 500
              (stopped_at 352 352) H1 H2 H3) as (_ & _ & _ & Hcopy).
  destruct (Hcopy ltac:(vm_compute; reflexivity)) as (_ & Ht & _).
  exact Ht.
Defined.


Lemma reachable_marker_within_bufsize_witness :
  @reachable sample_h (@run_call sample_h (CallControl [] 2 0)
                  (state_of (@ktrace_init sample_h sample_boot KTRACE_STATE))) /\
  marker (@run_call sample_h (CallControl [] 2 0)
            (state_of (@ktrace_init sample_h sample_boot KTRACE_STATE)))
  <= bufsize (@run_call sample_h (CallControl [] 2 0)
                (state_of (@ktrace_init sample_h sample_boot KTRACE_STATE))).
Proof.
  assert (Hr : @reachable sample_h (@run_call sample_h (CallControl [] 2 0)
                  (state_of (@ktrace_init sample_h sample_boot KTRACE_STATE))))
    by (apply reach_call, reach_init).
  split; [ exact Hr | ].
  exact (proj1 (@reachable_marker_within_bufsize sample_h _ Hr)).
Defined.

(** C4 as first stated fails: once the [int] cursor has wrapped, here to
    -8, Stop reads it as 4294967288 and clamps: [marker] is 1000, the
    capacity, and not the minimum of [offset] and [bufsize], which is
    -8. *)
Lemma stop_wrapped_cursor_counterexample :
  let ks := active_at (-8) in
  let r := @ktrace_control sample_h [] (@KTRACE_ACTION_STOP sample_h) 0 ks in
  well_typed ks /\
  grpmask (state_of r) = 0 /\
  marker (state_of r) = 1000 /\
  Z.min (offset (state_of r)) (bufsize (state_of r)) = -8 /\
  marker (state_of r) <> Z.min (offset (state_of r)) (bufsize (state_of r)).
Proof.
  vm_compute.
  repeat split; try discriminate; try reflexivity.
Qed.

(** C1 as first stated fails: the slot start plus the record length
    reaches [bufsize] (992 + 32 >= 1000), yet the call hands out the slot
    at 992 and leaves [grpmask] set; the last record overhangs the end. *)
Lemma open_overhang_counterexample :
  let ks := active_at 992 in
  let r := @ktrace_open sample_h sample_tag 1000 1 ks in
  Z.land sample_tag (to_u32 (grpmask ks)) <> 0 /\
  offset ks + KTRACE_LEN sample_tag >= bufsize ks /\
  result r = Some (992 + 16) /\
  grpmask (state_of r) = grpmask ks /\
  ~ (result r = None /\ grpmask (state_of r) = 0).
Proof.
  vm_compute.
  repeat split; try discriminate.
  intros [E _]. discriminate E.
Qed.

(** C2 as first stated fails: with 2 GiB readable, a read of 2 GiB from
    offset 0 copies [min len (extent - off)] = 2147483648 bytes, and the
    [int] answer is -2147483648, not that count. *)
Lemma read_user_count_counterexample :
  let ks := stopped_at_2g in
  let r := @ktrace_read_user sample_h (fun _ _ _ => 0) 4096 0 2147483648 ks in
  well_typed ks /\
  0 < spec_extent ks /\
  trace_of r = [EvCopyToUser 4096 0 (Z.min 2147483648 (spec_extent ks - 0))] /\
  result r = -2147483648 /\
  result r <> Z.min 2147483648 (spec_extent ks - 0).
Proof.
  vm_compute.
  repeat split; try discriminate; try reflexivity.
Qed.

(** C3 as first stated fails: in a stopped buffer frozen at 352 the size
    query after Rewind still answers 352, not the 64 bytes of the two
    metadata slots. *)
Lemma rewind_size_query_counterexample :
  let ks := stopped_at 352 352 in
  let r := @ktrace_control sample_h [] (@KTRACE_ACTION_REWIND sample_h) 0 ks in
  offset (state_of r) = @KTRACE_RECSIZE sample_h * 2 /\
  @size_query sample_h (state_of r) = 352 /\
  @size_query sample_h (state_of r) <> @KTRACE_RECSIZE sample_h * 2.
Proof.
  vm_compute.
  repeat split; try discriminate; try reflexivity.
Qed.


(** * Further properties of the operations *)

Section Further.

Context {hdrs : ktrace_h}.

(** ** The read-out path *)

(** X1.  [ktrace_read_user] never changes the trace buffer state, and it
    calls the copy routine at most once, for a range that starts at [off],
    is no longer than [len] and ends within the readable extent. *)
Theorem read_user_is_read_only
    (copy : Z -> Z -> Z -> Z) (ptr off len : Z) (ks : ktrace_state) :
  let r := ktrace_read_user copy ptr off len ks in
  state_of r = ks /\
  (trace_of r = [] \/
   exists n, trace_of r = [EvCopyToUser ptr off n] /\
             n <= len /\ off + n <= readable_max ks /\ off < readable_max ks).
Proof.
  intros r. subst r.
  destruct (Z.eq_dec ptr 0) as [Hnull|Hp].
  { subst ptr. rewrite read_user_null. split; [ reflexivity | left; reflexivity ]. }
  destruct (Z_lt_ge_dec off (readable_max ks)) as [Hin|Hout].
  - rewrite (read_user_copy copy ptr off len ks Hp Hin).
    unfold state_of, trace_of; simpl.
    split; [ reflexivity | right ].
    exists (Z.min len (readable_max ks - off)).
    split; [ reflexivity | lia ].
  - rewrite (read_user_past_extent copy ptr off len ks Hp Hout).
    split; [ reflexivity | left; reflexivity ].
Qed.

(** X2.  A read with a destination and a length that fits an [int]
    answers either [ERR_INVALID_ARGS] or a byte count between 0 and the
    length asked for. *)
Theorem read_user_result_range
    (copy : Z -> Z -> Z -> Z) (ptr off len : Z) (ks : ktrace_state) :
  ptr <> 0 ->
  0 <= len <= INT_MAX ->
  let r := ktrace_read_user copy ptr off len ks in
  result r = ERR_INVALID_ARGS \/ 0 <= result r <= len.
Proof.
  intros Hp Hlen r. subst r.
  destruct (Z_lt_ge_dec off (readable_max ks)) as [Hin|Hout].
  - rewrite (read_user_copy copy ptr off len ks Hp Hin).
    unfold result; simpl.
    destruct (negb (copy ptr off (Z.min len (readable_max ks - off)) =? NO_ERROR));
      [ left; reflexivity | right ].
    rewrite to_int_small; unfold INT_MAX in Hlen; lia.
  - rewrite (read_user_past_extent copy ptr off len ks Hp Hout).
    right. unfold result; simpl. lia.
Qed.

(** ** Stop, Rewind and what follows them *)

Lemma ktrace_name_closed (tag id arg : Z) (name : memory) (ts tid : Z)
    (ks : ktrace_state) :
  grpmask ks = 0 -> ktrace_name tag id arg name ts tid ks = (tt, ks, []).
Proof.
  intros Hoff. unfold ktrace_name, bind.
  rewrite ktrace_open_closed by (rewrite Hoff; apply Z.land_0_r).
  reflexivity.
Qed.

Lemma report_names_closed (threads : list live_thread) (ks : ktrace_state) :
  grpmask ks = 0 -> report_names threads ks = (tt, ks, []).
Proof.
  intros Hoff. induction threads as [|t rest IH]; [ reflexivity | ].
  simpl. unfold bind. rewrite ktrace_name_closed by exact Hoff.
  rewrite IH. reflexivity.
Qed.

(** X3.  Stop freezes exactly what was readable: the readable extent
    after Stop is the cursor clamped to [bufsize], which for a buffer that
    was not frozen before ([marker] 0) is the extent it had before Stop,
    so the size query answers the same before and after. *)
Theorem stop_keeps_readable_extent
    (threads : list live_thread) (options : Z) (ks : ktrace_state) :
  KTRACE_ACTION_STOP <> KTRACE_ACTION_START ->
  let ks' := state_of (ktrace_control threads KTRACE_ACTION_STOP options ks) in
  readable_max ks' = Z.min (to_u32 (offset ks)) (bufsize ks) /\
  (marker ks = 0 -> readable_max ks' = readable_max ks /\
                    size_query ks' = size_query ks).
Proof.
  intros Hne ks'. subst ks'.
  rewrite (control_stop_run threads options ks Hne).
  unfold state_of; cbn [fst snd].
  set (m := Z.min (to_u32 (offset ks)) (bufsize ks)).
  assert (Hr : readable_max (set_marker m (set_grpmask 0 ks)) = m).
  { rewrite readable_max_spec. unfold spec_extent. cbn [marker offset bufsize set_marker set_grpmask].
    destruct (m =? 0); reflexivity. }
  split; [ exact Hr | ].
  intros Hm.
  assert (Hsame : readable_max (set_marker m (set_grpmask 0 ks)) = readable_max ks).
  { rewrite Hr. rewrite (readable_max_spec ks). unfold spec_extent.
    rewrite Hm. reflexivity. }
  split; [ exact Hsame | ].
  rewrite !size_query_eq, Hsame. reflexivity.
Qed.

(** X4.  After Stop nothing is recorded any more: every [ktrace_open],
    every [ktrace_name] and a whole thread enumeration run on the stopped
    state return without a slot, without touching the state and without
    any store or fetch-and-add. *)
Theorem stop_silences_emitters
    (threads : list live_thread) (options : Z) (ks : ktrace_state) :
  KTRACE_ACTION_STOP <> KTRACE_ACTION_START ->
  let ks' := state_of (ktrace_control threads KTRACE_ACTION_STOP options ks) in
  forall (tag id arg : Z) (name : memory) (ts tid : Z) (live : list live_thread),
    ktrace_open tag ts tid ks' = (None, ks', []) /\
    ktrace_name tag id arg name ts tid ks' = (tt, ks', []) /\
    report_names live ks' = (tt, ks', []).
Proof.
  intros Hne ks' tag id arg name ts tid live.
  assert (Hoff : grpmask ks' = 0).
  { subst ks'. rewrite (control_stop_run threads options ks Hne). reflexivity. }
  split; [ | split ].
  - apply ktrace_open_closed. rewrite Hoff. apply Z.land_0_r.
  - apply ktrace_name_closed. exact Hoff.
  - apply report_names_closed. exact Hoff.
Qed.

(** X5.  Rewind followed by Stop always leaves exactly the two reserved
    metadata slots readable, whatever was frozen before: [marker] and the
    size query are the size of the two slots (given that the buffer holds
    them).  A second Rewind changes nothing. *)
Theorem rewind_then_stop_leaves_metadata
    (threads threads' : list live_thread) (options options' : Z) (ks : ktrace_state) :
  KTRACE_ACTION_STOP <> KTRACE_ACTION_START ->
  KTRACE_ACTION_REWIND <> KTRACE_ACTION_START ->
  KTRACE_ACTION_REWIND <> KTRACE_ACTION_STOP ->
  0 < KTRACE_RECSIZE * 2 < 2 ^ 31 ->
  KTRACE_RECSIZE * 2 <= bufsize ks ->
  let rewound := state_of (ktrace_control threads KTRACE_ACTION_REWIND options ks) in
  let stopped := state_of (ktrace_control threads' KTRACE_ACTION_STOP options' rewound) in
  marker stopped = KTRACE_RECSIZE * 2 /\
  size_query stopped = KTRACE_RECSIZE * 2 /\
  state_of (ktrace_control threads' KTRACE_ACTION_REWIND options' rewound) = rewound.
Proof.
  intros Hss Hrs Hrp Hsz Hfit rewound stopped. subst stopped rewound.
  rewrite (control_rewind_run threads options ks Hrs Hrp).
  unfold state_of at 2 4 5. cbn [fst snd].
  rewrite (control_stop_run threads' options' _ Hss).
  rewrite (control_rewind_run threads' options' _ Hrs Hrp).
  unfold state_of. cbn [fst snd].
  assert (Hi : to_int (KTRACE_RECSIZE * 2) = KTRACE_RECSIZE * 2)
    by (apply to_int_small; lia).
  assert (Hu : to_u32 (KTRACE_RECSIZE * 2) = KTRACE_RECSIZE * 2)
    by (apply to_u32_nonneg_int; lia).
  rewrite size_query_eq, readable_max_spec. unfold spec_extent.
  cbn [marker offset bufsize set_marker set_grpmask set_offset].
  rewrite Hi, Hu, Z.min_l by lia.
  destruct (Z.eqb_spec (KTRACE_RECSIZE * 2) 0); [ lia | ].
  repeat split. exact Hi.
Qed.

(** ** Loading what was stored *)

Lemma load_le_ext (m1 m2 : memory) (n : nat) (a : Z) :
  (forall i, 0 <= i < Z.of_nat n -> m1 (a + i) = m2 (a + i)) ->
  load_le m1 a n = load_le m2 a n.
Proof.
  revert a. induction n as [|n IH]; intros a Hext; [ reflexivity | ].
  cbn [load_le]. rewrite (IH (a + 1)).
  - specialize (Hext 0). rewrite Z.add_0_r in Hext. rewrite Hext by lia. reflexivity.
  - intros i Hi. replace (a + 1 + i) with (a + (i + 1)) by lia. apply Hext. lia.
Qed.

Lemma load_le_bytes (m : memory) (n : nat) (a x : Z) :
  (forall i, (i < n)%nat -> m (a + Z.of_nat i) = nth i (le_bytes n x) 0) ->
  load_le m a n = x mod 256 ^ Z.of_nat n.
Proof.
  revert a x. induction n as [|n IH]; intros a x Hb.
  - simpl. rewrite Z.mod_1_r. reflexivity.
  - cbn [load_le]. rewrite (IH (a + 1) (x / 256)).
    + pose proof (Hb O ltac:(lia)) as H0. simpl in H0. rewrite Z.add_0_r in H0.
      rewrite H0, Nat2Z.inj_succ, Z.pow_succ_r by lia.
      rewrite Z.rem_mul_r by lia. reflexivity.
    + intros i Hi. pose proof (Hb (S i) ltac:(lia)) as Hs.
      cbn [le_bytes nth] in Hs. rewrite <- Hs. f_equal. lia.
Qed.

Lemma load_le_store (m : memory) (n : nat) (a x : Z) :
  load_le (store_bytes m a (le_bytes n x)) a n = x mod 256 ^ Z.of_nat n.
Proof.
  apply load_le_bytes. intros i Hi.
  rewrite store_bytes_inside by (rewrite le_bytes_length; lia).
  f_equal. lia.
Qed.

Lemma load_le_store_other (m : memory) (b : Z) (bs : list Z) (n : nat) (a : Z) :
  a + Z.of_nat n <= b \/ b + Z.of_nat (length bs) <= a ->
  load_le (store_bytes m b bs) a n = load_le m a n.
Proof.
  intros Hdis. apply load_le_ext. intros i Hi.
  apply store_bytes_outside. lia.
Qed.

Lemma load_le_frame (m1 m2 : memory) (n : nat) (a lo hi : Z) :
  (forall x, x < lo \/ hi <= x -> m1 x = m2 x) ->
  a + Z.of_nat n <= lo \/ hi <= a ->
  load_le m1 a n = load_le m2 a n.
Proof.
  intros Hframe Hout. apply load_le_ext. intros i Hi. apply Hframe. lia.
Qed.

(** ** What the emitters write, and where *)

Lemma with_header_outside (off tag ts tid : Z) (m : memory) (a : Z) :
  header_fields_inside ->
  a < off \/ off + sizeof_ktrace_header_t <= a ->
  with_header off tag ts tid m a = m a.
Proof.
  intros ((Hts & Hts') & (Htag & Htag') & (Htid & Htid')) Hout.
  unfold with_header.
  repeat (rewrite store_bytes_outside;
          [ | rewrite le_bytes_length; simpl Z.of_nat; lia ]).
  reflexivity.
Qed.

Lemma with_name_record_outside (rec id arg : Z) (name : memory) (len : Z)
    (m : memory) (a : Z) :
  0 <= len ->
  a < rec \/ rec + 8 + len + 1 <= a ->
  with_name_record rec id arg name len m a = m a.
Proof.
  intros Hlen Hout. unfold with_name_record.
  repeat (rewrite store_bytes_outside;
          [ | rewrite ?le_bytes_length, ?read_bytes_length, ?Z2Nat.id by lia;
              simpl Z.of_nat; lia ]).
  reflexivity.
Qed.

Lemma strnlen_range (name : memory) : 0 <= strnlen name 31 <= 31.
Proof. exact (strnlen_from_range name 31 0). Qed.

Lemma ktrace_name_slot_run (tag id arg : Z) (name : memory) (ts tid : Z)
    (ks : ktrace_state) :
  Z.land (name_tag tag (strnlen name 31)) (to_u32 (grpmask ks)) <> 0 ->
  offset ks < to_int (bufsize ks) ->
  state_of (ktrace_name tag id arg name ts tid ks) =
  set_buffer
    (with_name_record (offset ks + sizeof_ktrace_header_t) id arg name (strnlen name 31)
       (with_header (offset ks) (name_tag tag (strnlen name 31)) ts tid (buffer ks)))
    (set_offset (to_int (offset ks + KTRACE_LEN (name_tag tag (strnlen name 31)))) ks).
Proof.
  intros Hgate Hroom. unfold ktrace_name, bind.
  rewrite (ktrace_open_slot _ ts tid ks Hgate Hroom). reflexivity.
Qed.

(** The three ways [ktrace_name] can go, as state transformers. *)
Lemma ktrace_name_cases (tag id arg : Z) (name : memory) (ts tid : Z)
    (ks : ktrace_state) :
  let len := strnlen name 31 in
  let tag' := name_tag tag len in
  let ks' := state_of (ktrace_name tag id arg name ts tid ks) in
  ks' = ks \/
  (offset ks >= to_int (bufsize ks) /\
   ks' = set_grpmask 0 (set_offset (to_int (offset ks + KTRACE_LEN tag')) ks)) \/
  (offset ks < to_int (bufsize ks) /\
   ks' = set_buffer
           (with_name_record (offset ks + sizeof_ktrace_header_t) id arg name len
              (with_header (offset ks) tag' ts tid (buffer ks)))
           (set_offset (to_int (offset ks + KTRACE_LEN tag')) ks)).
Proof.
  intros len tag' ks'. subst ks' tag' len.
  destruct (Z.eq_dec (Z.land (name_tag tag (strnlen name 31)) (to_u32 (grpmask ks))) 0)
    as [Hc|Ho].
  { left. unfold ktrace_name, bind. rewrite (ktrace_open_closed _ _ _ _ Hc). reflexivity. }
  destruct (Z_lt_ge_dec (offset ks) (to_int (bufsize ks))) as [Hroom|Hfull].
  - right; right. split; [ exact Hroom | ].
    apply ktrace_name_slot_run; assumption.
  - right; left. split; [ exact Hfull | ].
    unfold ktrace_name, bind. rewrite (ktrace_open_full _ _ _ _ Ho Hfull). reflexivity.
Qed.

Lemma ktrace_name_frame (tag id arg : Z) (name : memory) (ts tid : Z)
    (ks : ktrace_state) (a : Z) :
  header_fields_inside ->
  a < offset ks \/
  offset ks + sizeof_ktrace_header_t + 8 + strnlen name 31 + 1 <= a ->
  buffer (state_of (ktrace_name tag id arg name ts tid ks)) a = buffer ks a.
Proof.
  intros Hin Hout. pose proof (strnlen_range name) as Hlen.
  pose proof Hin as ((Hts & Hts') & _).
  destruct (ktrace_name_cases tag id arg name ts tid ks) as [E|[[_ E]|[_ E]]];
    rewrite E; try reflexivity.
  cbn [buffer set_buffer].
  rewrite with_name_record_outside by lia.
  apply with_header_outside; [ exact Hin | lia ].
Qed.

Lemma ktrace_name_cursor (tag id arg : Z) (name : memory) (ts tid : Z)
    (ks : ktrace_state) :
  - 2 ^ 31 <= offset ks -> offset ks + 120 < 2 ^ 31 ->
  offset ks <= offset (state_of (ktrace_name tag id arg name ts tid ks))
            <= offset ks + 120.
Proof.
  intros Hlo Hhi.
  pose proof (KTRACE_LEN_range (name_tag tag (strnlen name 31))) as Hl.
  destruct (ktrace_name_cases tag id arg name ts tid ks) as [E|[[_ E]|[_ E]]];
    rewrite E; cbn [offset set_buffer set_grpmask set_offset]; try lia;
    rewrite to_int_small; lia.
Qed.

Lemma with_header_loads (off tag ts tid : Z) (m : memory) :
  header_fields_disjoint ->
  load_le (with_header off tag ts tid m) (off + hdr_ts) 8 = ts mod 2 ^ 64 /\
  load_le (with_header off tag ts tid m) (off + hdr_tag) 4 = tag mod 2 ^ 32 /\
  load_le (with_header off tag ts tid m) (off + hdr_tid) 4 = to_u32 tid.
Proof.
  intros (Hts_tag & Hts_tid & Htag_tid). unfold with_header.
  split; [ | split ].
  - rewrite load_le_store_other by (rewrite le_bytes_length; simpl Z.of_nat; lia).
    rewrite load_le_store_other by (rewrite le_bytes_length; simpl Z.of_nat; lia).
    apply load_le_store.
  - rewrite load_le_store_other by (rewrite le_bytes_length; simpl Z.of_nat; lia).
    apply load_le_store.
  - rewrite load_le_store. unfold to_u32.
    change (256 ^ Z.of_nat 4) with (2 ^ 32). apply Z.mod_mod. lia.
Qed.

(** X6.  Two calls of [ktrace_open] in a row that both pass the gate and
    find room get adjacent slots: the second slot starts exactly where the
    length declared by the first tag ends.  When that length is at least
    the size of the header, the second call leaves the first record's
    header intact: its timestamp, tag and thread id still read back. *)
Theorem consecutive_slots_adjacent
    (tag1 ts1 tid1 tag2 ts2 tid2 : Z) (ks : ktrace_state) :
  Z.land tag1 (to_u32 (grpmask ks)) <> 0 ->
  Z.land tag2 (to_u32 (grpmask ks)) <> 0 ->
  - 2 ^ 31 <= offset ks ->
  offset ks + KTRACE_LEN tag1 < to_int (bufsize ks) ->
  let r1 := ktrace_open tag1 ts1 tid1 ks in
  let r2 := ktrace_open tag2 ts2 tid2 (state_of r1) in
  result r1 = Some (offset ks + sizeof_ktrace_header_t) /\
  result r2 = Some (offset ks + KTRACE_LEN tag1 + sizeof_ktrace_header_t) /\
  offset (state_of r2) = to_int (offset ks + KTRACE_LEN tag1 + KTRACE_LEN tag2) /\
  (header_fields_inside -> header_fields_disjoint ->
   sizeof_ktrace_header_t <= KTRACE_LEN tag1 ->
   load_le (buffer (state_of r2)) (offset ks + hdr_ts) 8 = ts1 mod 2 ^ 64 /\
   load_le (buffer (state_of r2)) (offset ks + hdr_tag) 4 = tag1 mod 2 ^ 32 /\
   load_le (buffer (state_of r2)) (offset ks + hdr_tid) 4 = tid1 mod 2 ^ 32).
Proof.
  intros Hg1 Hg2 Hlo Hroom r1 r2.
  pose proof (KTRACE_LEN_range tag1) as Hl1.
  pose proof (to_int_range (bufsize ks)) as Hb.
  assert (Hi : to_int (offset ks + KTRACE_LEN tag1) = offset ks + KTRACE_LEN tag1)
    by (apply to_int_small; lia).
  assert (E1 : r1 =
    (Some (offset ks + sizeof_ktrace_header_t),
     set_buffer (with_header (offset ks) tag1 ts1 tid1 (buffer ks))
       (set_offset (offset ks + KTRACE_LEN tag1) ks),
     [EvAtomicAddOffset (KTRACE_LEN tag1);
      EvWrite (offset ks + hdr_ts) (le_bytes 8 ts1);
      EvWrite (offset ks + hdr_tag) (le_bytes 4 tag1);
      EvWrite (offset ks + hdr_tid) (le_bytes 4 (to_u32 tid1))])).
  { subst r1. rewrite (ktrace_open_slot tag1 ts1 tid1 ks Hg1 ltac:(lia)).
    rewrite Hi. reflexivity. }
  subst r2. rewrite E1.
  change (state_of (?a, ?st, ?t)) with st.
  rewrite ktrace_open_slot; [ | exact Hg2 | exact Hroom ].
  unfold result, state_of. cbn [fst snd offset buffer set_buffer set_offset].
  split; [ reflexivity | ]. split; [ reflexivity | ]. split; [ reflexivity | ].
  intros Hin Hdis Hcov.
  pose proof Hin as ((Hts & Hts') & (Htag & Htag') & (Htid & Htid')).
  set (m1 := with_header (offset ks) tag1 ts1 tid1 (buffer ks)).
  assert (Hkeep : forall a n, offset ks <= a ->
            a + Z.of_nat n <= offset ks + sizeof_ktrace_header_t ->
            load_le (with_header (offset ks + KTRACE_LEN tag1) tag2 ts2 tid2 m1) a n
            = load_le m1 a n).
  { intros a n Ha Hn.
    apply (load_le_frame _ _ n a (offset ks + KTRACE_LEN tag1)
             (offset ks + KTRACE_LEN tag1 + sizeof_ktrace_header_t)).
    - intros x Hx. apply with_header_outside; [ exact Hin | exact Hx ].
    - lia. }
  rewrite (Hkeep (offset ks + hdr_ts) 8%nat) by (simpl Z.of_nat; lia).
  rewrite (Hkeep (offset ks + hdr_tag) 4%nat) by (simpl Z.of_nat; lia).
  rewrite (Hkeep (offset ks + hdr_tid) 4%nat) by (simpl Z.of_nat; lia).
  exact (with_header_loads (offset ks) tag1 ts1 tid1 (buffer ks) Hdis).
Qed.

Lemma report_names_below_cursor (threads : list live_thread) (ks : ktrace_state) :
  header_fields_inside ->
  - 2 ^ 31 <= offset ks ->
  offset ks + 120 * Z.of_nat (length threads) < 2 ^ 31 ->
  offset ks <= offset (state_of (report_names threads ks)) /\
  (forall a, a < offset ks ->
     buffer (state_of (report_names threads ks)) a = buffer ks a).
Proof.
  intros Hin. revert ks. induction threads as [|t rest IH]; intros ks Hlo Hnowrap.
  { split; [ reflexivity | intros; reflexivity ]. }
  change (length (t :: rest)) with (S (length rest)) in Hnowrap.
  rewrite Nat2Z.inj_succ in Hnowrap.
  pose proof (ktrace_name_cursor (lt_tag t) (lt_id t) (lt_arg t) (lt_name t)
                (lt_ts t) (lt_tid t) ks Hlo ltac:(lia)) as Hcur.
  pose proof (fun a => ktrace_name_frame (lt_tag t) (lt_id t) (lt_arg t) (lt_name t)
                (lt_ts t) (lt_tid t) ks a Hin) as Hframe.
  simpl report_names. unfold bind.
  destruct (ktrace_name (lt_tag t) (lt_id t) (lt_arg t) (lt_name t)
              (lt_ts t) (lt_tid t) ks) as [[u ks1] t1].
  specialize (IH ks1).
  destruct (report_names rest ks1) as [[u2 ks2] t2].
  unfold state_of in *. cbn [fst snd] in *.
  destruct IH as [IHo IHb]; [ lia | lia | ].
  split; [ lia | ].
  intros a Ha. rewrite IHb by lia. apply Hframe. left. exact Ha.
Qed.

Lemma ktrace_open_cursor (tag ts tid : Z) (ks : ktrace_state) :
  - 2 ^ 31 <= offset ks -> offset ks + 120 < 2 ^ 31 ->
  offset ks <= offset (state_of (ktrace_open tag ts tid ks)) <= offset ks + 120.
Proof.
  intros Hlo Hhi. pose proof (KTRACE_LEN_range tag) as Hl.
  destruct (ktrace_open_cases tag ts tid ks) as [E|[[_ E]|[_ E]]];
    rewrite E; cbn [state_of fst snd offset set_buffer set_grpmask set_offset];
    try lia; rewrite to_int_small; lia.
Qed.

(** X7.  Bytes below the cursor are never changed by later emits: while
    the cursor does not wrap, [ktrace_open], [ktrace_name] and a whole
    sequence of name records leave every byte below the cursor they start
    from as it was and never move the cursor back.  In particular a
    granted name record, whose declared length covers all its bytes, is
    left intact by every sequence of name records emitted after it. *)
Theorem emitters_keep_bytes_below_cursor
    (threads : list live_thread) (ks : ktrace_state) :
  header_fields_inside ->
  - 2 ^ 31 <= offset ks ->
  offset ks + 120 * (Z.of_nat (length threads) + 1) < 2 ^ 31 ->
  (forall tag ts tid,
     offset ks <= offset (state_of (ktrace_open tag ts tid ks)) /\
     forall a, a < offset ks ->
       buffer (state_of (ktrace_open tag ts tid ks)) a = buffer ks a) /\
  (forall tag id arg name ts tid,
     offset ks <= offset (state_of (ktrace_name tag id arg name ts tid ks)) /\
     forall a, a < offset ks ->
       buffer (state_of (ktrace_name tag id arg name ts tid ks)) a = buffer ks a) /\
  (offset ks <= offset (state_of (report_names threads ks)) /\
   forall a, a < offset ks ->
     buffer (state_of (report_names threads ks)) a = buffer ks a) /\
  (forall tag id arg name ts tid,
     sizeof_ktrace_header_t = KTRACE_HDRSIZE ->
     0 <= KTRACE_HDRSIZE <= 80 ->
     Z.land (name_tag tag (strnlen name 31)) (to_u32 (grpmask ks)) <> 0 ->
     offset ks < to_int (bufsize ks) ->
     let ks1 := state_of (ktrace_name tag id arg name ts tid ks) in
     forall a, a < offset ks + sizeof_ktrace_header_t + 8 + strnlen name 31 + 1 ->
       buffer (state_of (report_names threads ks1)) a = buffer ks1 a).
Proof.
  intros Hin Hlo Hnowrap.
  pose proof (Nat2Z.is_nonneg (length threads)) as Hn.
  split; [ | split; [ | split ] ].
  - intros tag ts tid. split.
    + apply ktrace_open_cursor; lia.
    + intros a Ha.
      destruct (ktrace_open_cases tag ts tid ks) as [E|[[_ E]|[_ E]]];
        rewrite E; try reflexivity.
      cbn [state_of fst snd buffer set_buffer].
      apply with_header_outside; [ exact Hin | lia ].
  - intros tag id arg name ts tid. split.
    + apply ktrace_name_cursor; lia.
    + intros a Ha. apply ktrace_name_frame; [ exact Hin | left; exact Ha ].
  - apply report_names_below_cursor; [ exact Hin | exact Hlo | lia ].
  - intros tag id arg name ts tid Hsz Hh Hgate Hroom ks1 a Ha.
    pose proof (strnlen_range name) as Hlen.
    pose proof (name_tag_length tag (strnlen name 31) Hh Hlen) as HL.
    pose proof (KTRACE_LEN_range (name_tag tag (strnlen name 31))) as Hl.
    assert (Ho : offset ks1 = offset ks + KTRACE_LEN (name_tag tag (strnlen name 31))).
    { subst ks1. rewrite (ktrace_name_slot_run tag id arg name ts tid ks Hgate Hroom).
      cbn [offset set_buffer set_offset]. apply to_int_small. lia. }
    apply report_names_below_cursor; [ exact Hin | lia | lia | ].
    rewrite Ho, HL, Hsz in *. Z.div_mod_to_equations; lia.
Qed.

(** ** Records read back *)

(** X8.  The header of a granted slot reads back: loading the
    little-endian fields at the slot start gives the timestamp, the tag
    and the low 32 bits of the thread id that the call was given. *)
Theorem open_header_reads_back (tag ts tid : Z) (ks : ktrace_state) :
  header_fields_disjoint ->
  Z.land tag (to_u32 (grpmask ks)) <> 0 ->
  offset ks < to_int (bufsize ks) ->
  let m := buffer (state_of (ktrace_open tag ts tid ks)) in
  load_le m (offset ks + hdr_ts) 8 = ts mod 2 ^ 64 /\
  load_le m (offset ks + hdr_tag) 4 = tag mod 2 ^ 32 /\
  load_le m (offset ks + hdr_tid) 4 = tid mod 2 ^ 32.
Proof.
  intros Hdis Hgate Hroom m. subst m.
  rewrite (ktrace_open_slot tag ts tid ks Hgate Hroom).
  cbn [state_of fst snd buffer set_buffer].
  exact (with_header_loads (offset ks) tag ts tid (buffer ks) Hdis).
Qed.

Lemma KTRACE_LEN_mod (x : Z) : KTRACE_LEN (x mod 2 ^ 32) = KTRACE_LEN x.
Proof.
  unfold KTRACE_LEN. f_equal.
  rewrite <- Z.land_ones by lia. rewrite <- Z.land_assoc.
  reflexivity.
Qed.

(** X9.  A granted name record reads back: behind the header the id and
    the arg load as given (modulo 2^32), the header still holds the
    timestamp and the thread id, and the length recovered from the stored
    tag is the length the cursor was advanced by. *)
Theorem name_record_reads_back
    (tag id arg : Z) (name : memory) (ts tid : Z) (ks : ktrace_state) :
  header_fields_inside ->
  header_fields_disjoint ->
  let len := strnlen name 31 in
  let tag' := name_tag tag len in
  Z.land tag' (to_u32 (grpmask ks)) <> 0 ->
  offset ks < to_int (bufsize ks) ->
  let ks' := state_of (ktrace_name tag id arg name ts tid ks) in
  let rec := offset ks + sizeof_ktrace_header_t in
  load_le (buffer ks') rec 4 = id mod 2 ^ 32 /\
  load_le (buffer ks') (rec + 4) 4 = arg mod 2 ^ 32 /\
  load_le (buffer ks') (offset ks + hdr_ts) 8 = ts mod 2 ^ 64 /\
  load_le (buffer ks') (offset ks + hdr_tid) 4 = tid mod 2 ^ 32 /\
  load_le (buffer ks') (offset ks + hdr_tag) 4 = tag' mod 2 ^ 32 /\
  offset ks' =
    to_int (offset ks + KTRACE_LEN (load_le (buffer ks') (offset ks + hdr_tag) 4)).
Proof.
  intros Hin Hdis len tag' Hgate Hroom ks' rec.
  pose proof (strnlen_range name) as Hlen. fold len in Hlen.
  pose proof Hin as ((Hts & Hts') & (Htag & Htag') & (Htid & Htid')).
  assert (E : ks' =
    set_buffer
      (with_name_record rec id arg name len
         (with_header (offset ks) tag' ts tid (buffer ks)))
      (set_offset (to_int (offset ks + KTRACE_LEN tag')) ks)).
  { subst ks'. apply ktrace_name_slot_run; assumption. }
  rewrite E. cbn [buffer offset set_buffer set_offset].
  set (hm := with_header (offset ks) tag' ts tid (buffer ks)).
  destruct (with_header_loads (offset ks) tag' ts tid (buffer ks) Hdis)
    as (Lts & Ltag & Ltid). fold hm in Lts, Ltag, Ltid.
  assert (Hhdr : forall a n, offset ks <= a -> a + Z.of_nat n <= rec ->
            load_le (with_name_record rec id arg name len hm) a n = load_le hm a n).
  { intros a n Ha Hn.
    apply (load_le_frame _ _ n a rec (rec + 8 + len + 1)).
    - intros x Hx. apply with_name_record_outside; lia.
    - lia. }
  assert (Lid : load_le (with_name_record rec id arg name len hm) rec 4 = id mod 2 ^ 32).
  { unfold with_name_record.
    rewrite load_le_store_other by (rewrite le_bytes_length; simpl Z.of_nat; lia).
    rewrite load_le_store_other
      by (rewrite read_bytes_length, Z2Nat.id by lia; simpl Z.of_nat; lia).
    rewrite load_le_store_other by (rewrite le_bytes_length; simpl Z.of_nat; lia).
    apply load_le_store. }
  assert (Larg : load_le (with_name_record rec id arg name len hm) (rec + 4) 4
                 = arg mod 2 ^ 32).
  { unfold with_name_record.
    rewrite load_le_store_other by (rewrite le_bytes_length; simpl Z.of_nat; lia).
    rewrite load_le_store_other
      by (rewrite read_bytes_length, Z2Nat.id by lia; simpl Z.of_nat; lia).
    apply load_le_store. }
  rewrite Lid, Larg.
  rewrite (Hhdr (offset ks + hdr_ts) 8%nat) by (subst rec; simpl Z.of_nat; lia).
  rewrite (Hhdr (offset ks + hdr_tid) 4%nat) by (subst rec; simpl Z.of_nat; lia).
  rewrite (Hhdr (offset ks + hdr_tag) 4%nat) by (subst rec; simpl Z.of_nat; lia).
  rewrite Lts, Ltag, Ltid, KTRACE_LEN_mod.
  unfold to_u32. repeat split.
Qed.

(** ** The gate and the name tag *)

Lemma land_mask_high (mask : Z) :
  0 <= mask < 2 ^ 32 -> Z.land mask 15 = 0 -> Z.land 4294967280 mask = mask.
Proof.
  intros Hr Hlow.
  rewrite Z.land_comm.
  assert (Hm : Z.land mask (Z.ones 32) = mask)
    by (rewrite Z.land_ones by lia; apply Z.mod_small; exact Hr).
  rewrite <- Hm at 2.
  change (Z.ones 32) with (Z.lor 4294967280 15).
  rewrite Z.land_lor_distr_r, Hlow, Z.lor_0_r. reflexivity.
Qed.

Lemma name_tag_masked (tag len mask : Z) :
  0 <= KTRACE_HDRSIZE <= 80 -> 0 <= len <= 31 ->
  0 <= mask < 2 ^ 32 -> Z.land mask 15 = 0 ->
  Z.land (name_tag tag len) mask = Z.land tag mask.
Proof.
  intros Hh Hl Hr Hlow. unfold name_tag.
  rewrite to_u32_small by (change (2 ^ 32) with 4294967296; lia).
  rewrite Z.shiftr_div_pow2 by lia. change (2 ^ 3) with 8.
  set (k := (KTRACE_HDRSIZE + 8 + len + 1 + 7) / 8).
  assert (Hk : 0 <= k < 16) by (subst k; Z.div_mod_to_equations; lia).
  assert (Hk15 : Z.land k 15 = k).
  { change 15 with (Z.ones 4). rewrite Z.land_ones by lia.
    apply Z.mod_small. change (2 ^ 4) with 16. lia. }
  rewrite Z.land_lor_distr_l.
  rewrite <- (Z.land_assoc tag), (land_mask_high mask Hr Hlow).
  rewrite <- Hk15, <- Z.land_assoc, (Z.land_comm 15 mask), Hlow, Z.land_0_r.
  apply Z.lor_0_r.
Qed.

(** X10.  Rewriting the length field does not change how a name record
    is gated: when the group mask has no bit in the tag's four length
    bits, the tag [ktrace_name] makes meets the mask in exactly the bits
    the caller's tag does; in particular a name whose tag shares no bit
    with the mask is dropped without any effect. *)
Theorem name_gated_like_its_tag
    (tag id arg : Z) (name : memory) (ts tid : Z) (ks : ktrace_state) :
  0 <= KTRACE_HDRSIZE <= 80 ->
  Z.land (to_u32 (grpmask ks)) 15 = 0 ->
  Z.land (name_tag tag (strnlen name 31)) (to_u32 (grpmask ks)) =
    Z.land tag (to_u32 (grpmask ks)) /\
  (Z.land tag (to_u32 (grpmask ks)) = 0 ->
   ktrace_name tag id arg name ts tid ks = (tt, ks, [])).
Proof.
  intros Hh Hlow.
  assert (E : Z.land (name_tag tag (strnlen name 31)) (to_u32 (grpmask ks)) =
              Z.land tag (to_u32 (grpmask ks))).
  { apply name_tag_masked; auto using strnlen_range, to_u32_range. }
  split; [ exact E | ].
  intros Hc. unfold ktrace_name, bind.
  rewrite ktrace_open_closed by (rewrite E; exact Hc).
  reflexivity.
Qed.

(** ** A full buffer *)

Lemma report_names_full (threads : list live_thread) (ks : ktrace_state) :
  to_int (bufsize ks) <= offset ks ->
  offset ks + 120 * Z.of_nat (length threads) < 2 ^ 31 ->
  buffer (state_of (report_names threads ks)) = buffer ks /\
  bufsize (state_of (report_names threads ks)) = bufsize ks /\
  offset ks <= offset (state_of (report_names threads ks)).
Proof.
  revert ks. induction threads as [|t rest IH]; intros ks Hfull Hnowrap.
  { repeat split. apply Z.le_refl. }
  change (length (t :: rest)) with (S (length rest)) in Hnowrap.
  rewrite Nat2Z.inj_succ in Hnowrap.
  pose proof (to_int_range (bufsize ks)) as Hb.
  pose proof (KTRACE_LEN_range (name_tag (lt_tag t) (strnlen (lt_name t) 31))) as Hl.
  pose proof (ktrace_name_cases (lt_tag t) (lt_id t) (lt_arg t) (lt_name t)
                (lt_ts t) (lt_tid t) ks) as Hcases.
  simpl report_names. unfold bind.
  destruct (ktrace_name (lt_tag t) (lt_id t) (lt_arg t) (lt_name t)
              (lt_ts t) (lt_tid t) ks) as [[u ks1] t1].
  specialize (IH ks1).
  destruct (report_names rest ks1) as [[u2 ks2] t2].
  unfold state_of in *. cbn [fst snd] in *.
  assert (Hstep : buffer ks1 = buffer ks /\ bufsize ks1 = bufsize ks /\
                  offset ks <= offset ks1 <= offset ks + 120).
  { destruct Hcases as [E|[[_ E]|[Hroom E]]]; [ | | lia ]; rewrite E;
      cbn [buffer bufsize offset set_grpmask set_offset].
    - repeat split; lia.
    - rewrite to_int_small by lia. repeat split; lia. }
  destruct Hstep as (Hbuf & Hsz & Hoff).
  destruct IH as (IHb & IHs & IHo); [ rewrite Hsz; lia | lia | ].
  repeat split; [ rewrite IHb; exact Hbuf | rewrite IHs; exact Hsz | lia ].
Qed.


(** X11.  A full buffer stays silent: with the cursor at or beyond
    [bufsize], [ktrace_open] returns no slot and writes nothing, and a
    whole enumeration writes nothing either and leaves the cursor at or
    beyond [bufsize] (as long as the cursor does not wrap). *)
Theorem full_buffer_stays_silent (threads : list live_thread) (ks : ktrace_state) :
  to_int (bufsize ks) <= offset ks ->
  offset ks + 120 * Z.of_nat (length threads) < 2 ^ 31 ->
  (forall tag ts tid,
     result (ktrace_open tag ts tid ks) = None /\
     buffer (state_of (ktrace_open tag ts tid ks)) = buffer ks) /\
  buffer (state_of (report_names threads ks)) = buffer ks /\
  to_int (bufsize (state_of (report_names threads ks)))
    <= offset (state_of (report_names threads ks)).
Proof.
  intros Hfull Hnowrap. split.
  { intros tag ts tid.
    destruct (ktrace_open_cases tag ts tid ks) as [E|[[_ E]|[Hroom E]]];
      [ | | lia ]; rewrite E; split; reflexivity. }
  revert ks Hfull Hnowrap. induction threads as [|t rest IH]; intros ks Hfull Hnowrap.
  { split; [ reflexivity | exact Hfull ]. }
  change (length (t :: rest)) with (S (length rest)) in Hnowrap.
  rewrite Nat2Z.inj_succ in Hnowrap.
  pose proof (to_int_range (bufsize ks)) as Hb.
  pose proof (KTRACE_LEN_range (name_tag (lt_tag t) (strnlen (lt_name t) 31))) as Hl.
  pose proof (ktrace_name_cases (lt_tag t) (lt_id t) (lt_arg t) (lt_name t)
                (lt_ts t) (lt_tid t) ks) as Hcases.
  simpl report_names. unfold bind.
  destruct (ktrace_name (lt_tag t) (lt_id t) (lt_arg t) (lt_name t)
              (lt_ts t) (lt_tid t) ks) as [[u ks1] t1].
  specialize (IH ks1).
  destruct (report_names rest ks1) as [[u2 ks2] t2].
  unfold state_of in *. cbn [fst snd] in *.
  assert (Hstep : buffer ks1 = buffer ks /\ bufsize ks1 = bufsize ks /\
                  offset ks <= offset ks1 <= offset ks + 120).
  { destruct Hcases as [E|[[_ E]|[Hroom E]]]; [ | | lia ]; rewrite E;
      cbn [buffer bufsize offset set_grpmask set_offset].
    - repeat split; lia.
    - rewrite to_int_small by lia. repeat split; lia. }
  destruct Hstep as (Hbuf & Hsz & Hoff).
  destruct IH as [IHb IHo]; [ rewrite Hsz; lia | lia | ].
  split; [ rewrite IHb; exact Hbuf | exact IHo ].
Qed.



(** ** Initialization *)

Lemma init_run (env : boot_env) :
  cmdline_bufsize env <> 0 ->
  0 <= alloc_status env ->
  state_of (ktrace_init env KTRACE_STATE) =
  state_of (report_names (boot_threads env) (booted env)).
Proof.
  intros Hmb Halloc. unfold ktrace_init.
  destruct (Z.eqb_spec (cmdline_bufsize env) 0); [ contradiction | ].
  unfold bind at 1. unfold call_alloc. cbv beta iota zeta.
  destruct (Z.ltb_spec (alloc_status env) 0); [ lia | ].
  unfold bind, store_bufsize, write_u32, write_bytes, atomic_store_offset,
    atomic_store_grpmask, ktrace_report_live_threads, bind.
  change (set_grpmask _ (set_offset _ (set_buffer _ (set_buffer _ (set_buffer _
            (set_buffer _ (set_buffer _ (set_bufsize _ (set_buffer _ KTRACE_STATE)))))))))
    with (booted env).
  destruct (report_names (boot_threads env) (booted env)) as [[u ks'] t].
  reflexivity.
Qed.

(** X13.  A switched-off or failed initialization leaves the trace buffer
    disabled: with a configured size of 0, or when the allocation fails,
    the state stays the zero-initialised one, so the size query answers 0
    and every [ktrace_open] is refused without effect; and a later Start
    cannot make it record, whatever threads it enumerates (as long as
    their number does not wrap the cursor): nothing has been written when
    Start returns, and the next [ktrace_open] gets no slot and writes
    nothing either. *)
Theorem init_disabled_never_records (env : boot_env) :
  cmdline_bufsize env = 0 \/ alloc_status env < 0 ->
  let ks := state_of (ktrace_init env KTRACE_STATE) in
  ks = KTRACE_STATE /\
  size_query ks = 0 /\
  (forall tag ts tid, ktrace_open tag ts tid ks = (None, ks, [])) /\
  (forall live options tag ts tid,
     120 * Z.of_nat (length live) < 2 ^ 31 ->
     let started := state_of (ktrace_control live KTRACE_ACTION_START options ks) in
     buffer started = buffer ks /\
     result (ktrace_open tag ts tid started) = None /\
     buffer (state_of (ktrace_open tag ts tid started)) = buffer ks).
Proof.
  intros Hoff ks.
  assert (E : ks = KTRACE_STATE).
  { subst ks. unfold ktrace_init.
    destruct (Z.eqb_spec (cmdline_bufsize env) 0); [ reflexivity | ].
    unfold bind at 1. unfold call_alloc. cbv beta iota zeta.
    destruct (Z.ltb_spec (alloc_status env) 0); [ reflexivity | lia ]. }
  rewrite E. clear E ks.
  split; [ reflexivity | ]. split; [ reflexivity | ].
  split; [ intros; apply ktrace_open_closed, Z.land_0_r | ].
  intros live options tag ts tid Hn started.
  assert (Es : started = state_of (report_names live (armed options KTRACE_STATE)))
    by (subst started; rewrite control_start_run; reflexivity).
  destruct (report_names_full live (armed options KTRACE_STATE))
    as (Hbuf & Hsz & Hcur); [ cbn; lia | cbn [offset armed set_grpmask set_marker KTRACE_STATE]; lia | ].
  rewrite <- Es in Hbuf, Hsz, Hcur.
  cbn [buffer bufsize offset armed set_grpmask set_marker KTRACE_STATE] in Hbuf, Hsz, Hcur.
  split; [ exact Hbuf | ].
  destruct (ktrace_open_cases tag ts tid started) as [E|[[_ E]|[Hroom E]]].
  - rewrite E. split; [ reflexivity | exact Hbuf ].
  - rewrite E. split; [ reflexivity | exact Hbuf ].
  - rewrite Hsz in Hroom. change (to_int 0) with 0 in Hroom. lia.
Qed.

Lemma with_metadata_loads (ticks : Z) (m : memory) :
  rec_32b_fields_ordered ->
  let m' := with_metadata ticks m in
  load_le m' rec_tag 4 = TAG_VERSION mod 2 ^ 32 /\
  load_le m' rec_a 4 = KTRACE_VERSION mod 2 ^ 32 /\
  load_le m' (sizeof_ktrace_rec_32b_t + rec_tag) 4 = TAG_TICKS_PER_MS mod 2 ^ 32 /\
  load_le m' (sizeof_ktrace_rec_32b_t + rec_a) 4
    + 2 ^ 32 * load_le m' (sizeof_ktrace_rec_32b_t + rec_b) 4 = ticks mod 2 ^ 64.
Proof.
  intros (H0 & H1 & H2 & H3) m'. subst m'. unfold with_metadata.
  rewrite !Z.mul_0_l, !Z.mul_1_l, !Z.add_0_l.
  repeat split.
  - do 4 (rewrite load_le_store_other by (rewrite le_bytes_length; simpl Z.of_nat; lia)).
    apply load_le_store.
  - do 3 (rewrite load_le_store_other by (rewrite le_bytes_length; simpl Z.of_nat; lia)).
    apply load_le_store.
  - do 2 (rewrite load_le_store_other by (rewrite le_bytes_length; simpl Z.of_nat; lia)).
    apply load_le_store.
  - rewrite load_le_store.
    rewrite load_le_store_other by (rewrite le_bytes_length; simpl Z.of_nat; lia).
    rewrite load_le_store.
    change (256 ^ Z.of_nat 4) with (2 ^ 32). unfold to_u32.
    rewrite !Z.mod_mod by lia.
    rewrite Z.shiftr_div_pow2 by lia.
    change (2 ^ 64) with (2 ^ 32 * 2 ^ 32).
    rewrite Z.rem_mul_r by lia. reflexivity.
Qed.

(** X14.  A successful initialization (a size that is not 0, an
    allocation that succeeds) sets [bufsize] to the allocation's size
    less 256, leaves [marker] 0 and the cursor at or behind the two
    metadata records, and the metadata reads back from the start of the
    buffer whatever the enumeration recorded after it: the version tag
    and version in record 0, the ticks tag in record 1 and the ticks per
    millisecond split over its words [a] (low) and [b] (high). *)
Theorem init_publishes_metadata (env : boot_env) :
  cmdline_bufsize env <> 0 ->
  0 <= alloc_status env ->
  rec_32b_fields_ordered ->
  header_fields_inside ->
  sizeof_ktrace_rec_32b_t * 2 <= KTRACE_RECSIZE * 2 ->
  KTRACE_RECSIZE * 2 + 120 * Z.of_nat (length (boot_threads env)) < 2 ^ 31 ->
  let ks := state_of (ktrace_init env KTRACE_STATE) in
  bufsize ks = to_u32 (to_u32 (cmdline_bufsize env * (1024 * 1024)) - 256) /\
  marker ks = 0 /\
  KTRACE_RECSIZE * 2 <= offset ks /\
  load_le (buffer ks) rec_tag 4 = TAG_VERSION mod 2 ^ 32 /\
  load_le (buffer ks) rec_a 4 = KTRACE_VERSION mod 2 ^ 32 /\
  load_le (buffer ks) (sizeof_ktrace_rec_32b_t + rec_tag) 4
    = TAG_TICKS_PER_MS mod 2 ^ 32 /\
  load_le (buffer ks) (sizeof_ktrace_rec_32b_t + rec_a) 4
    + 2 ^ 32 * load_le (buffer ks) (sizeof_ktrace_rec_32b_t + rec_b) 4
    = ticks_per_ms env mod 2 ^ 64.
Proof.
  intros Hmb Halloc Hrec Hhdr Hsz Hnowrap ks. subst ks.
  rewrite (init_run env Hmb Halloc).
  pose proof Hrec as (H0 & H1 & H2 & H3).
  assert (Hi : to_int (KTRACE_RECSIZE * 2) = KTRACE_RECSIZE * 2)
    by (apply to_int_small; lia).
  pose proof (report_names_frozen (boot_threads env) (booted env)) as (Hb & Hm & _).
  assert (Hlo : - 2 ^ 31 <= offset (booted env))
    by (cbn [offset booted]; rewrite Hi; lia).
  assert (Hnw : offset (booted env) + 120 * Z.of_nat (length (boot_threads env)) < 2 ^ 31)
    by (cbn [offset booted]; rewrite Hi; lia).
  pose proof (report_names_below_cursor (boot_threads env) (booted env) Hhdr Hlo Hnw)
    as Hkeep.
  destruct Hkeep as (Hoff & Hbytes).
  cbn [offset booted] in Hoff, Hbytes. rewrite Hi in Hoff, Hbytes.
  assert (Hload : forall a n, 0 <= a -> a + Z.of_nat n <= KTRACE_RECSIZE * 2 ->
            load_le (buffer (state_of (report_names (boot_threads env) (booted env)))) a n
            = load_le (with_metadata (ticks_per_ms env) (alloc_memory env)) a n).
  { intros a n Ha Hn. apply load_le_ext. intros i Hi'.
    rewrite Hbytes by lia. reflexivity. }
  destruct (with_metadata_loads (ticks_per_ms env) (alloc_memory env) Hrec)
    as (L0 & L1 & L2 & L3).
  rewrite Hb, Hm.
  rewrite !Hload by (simpl Z.of_nat; lia).
  cbn [bufsize marker booted].
  repeat split; assumption.
Qed.

(** ** Frames *)

(** X15.  A record stays inside the allocation: for a cursor that is not
    negative, a capacity that fits an [int] and a header of at most 216
    bytes, [ktrace_open] and [ktrace_name] change no byte before the
    buffer or at or beyond [bufsize + 256], the size [ktrace_init]
    allocated. *)
Theorem records_stay_inside_allocation
    (tag id arg : Z) (name : memory) (ts tid : Z) (ks : ktrace_state) (a : Z) :
  header_fields_inside ->
  sizeof_ktrace_header_t <= 216 ->
  0 <= offset ks ->
  0 <= bufsize ks < 2 ^ 31 ->
  a < 0 \/ bufsize ks + 256 <= a ->
  buffer (state_of (ktrace_open tag ts tid ks)) a = buffer ks a /\
  buffer (state_of (ktrace_name tag id arg name ts tid ks)) a = buffer ks a.
Proof.
  intros Hin Hsz Hoff Hbs Hout.
  pose proof (to_int_small (bufsize ks) ltac:(lia)) as Hi.
  pose proof (strnlen_range name) as Hlen.
  split.
  - destruct (ktrace_open_cases tag ts tid ks) as [E|[[_ E]|[Hroom E]]];
      rewrite E; try reflexivity.
    cbn [state_of fst snd buffer set_buffer].
    apply with_header_outside; [ exact Hin | lia ].
  - destruct (Z_lt_ge_dec (offset ks) (to_int (bufsize ks))) as [Hroom|Hfull].
    + apply ktrace_name_frame; [ exact Hin | lia ].
    + destruct (ktrace_name_cases tag id arg name ts tid ks) as [E|[[_ E]|[Hroom E]]];
        [ | | lia ]; rewrite E; reflexivity.
Qed.

(** X16.  Only Start can lead to writes into the buffer: for every other
    action code [ktrace_control] leaves the buffer contents and [bufsize]
    as they were, and unless the action is Rewind the cursor too. *)
Theorem control_without_start_keeps_buffer
    (threads : list live_thread) (action options : Z) (ks : ktrace_state) :
  action <> KTRACE_ACTION_START ->
  let ks' := state_of (ktrace_control threads action options ks) in
  buffer ks' = buffer ks /\
  bufsize ks' = bufsize ks /\
  (action <> KTRACE_ACTION_REWIND -> offset ks' = offset ks).
Proof.
  intros Hns ks'. subst ks'. unfold ktrace_control.
  destruct (Z.eqb_spec action KTRACE_ACTION_START); [ contradiction | ].
  destruct (action =? KTRACE_ACTION_STOP).
  { unfold bind, atomic_store_grpmask, get_ks, store_marker, ret, state_of.
    cbn [fst snd set_grpmask offset bufsize].
    destruct (to_u32 (offset ks) >? bufsize ks); cbn; repeat split. }
  destruct (Z.eqb_spec action KTRACE_ACTION_REWIND).
  { unfold state_of, bind, atomic_store_offset, ret. cbn.
    repeat split. intros N. contradiction. }
  unfold state_of, ret. cbn. repeat split.
Qed.

(** X17.  The emitters never touch [bufsize] or [marker], and the only
    thing they ever do to [grpmask] is clear it: this holds for
    [ktrace_open], for [ktrace_name] and for a whole enumeration. *)
Theorem emitters_keep_bufsize_and_marker
    (threads : list live_thread) (tag id arg : Z) (name : memory) (ts tid : Z)
    (ks : ktrace_state) :
  let kept (ks' : ktrace_state) :=
    bufsize ks' = bufsize ks /\ marker ks' = marker ks /\
    (grpmask ks' = grpmask ks \/ grpmask ks' = 0) in
  kept (state_of (ktrace_open tag ts tid ks)) /\
  kept (state_of (ktrace_name tag id arg name ts tid ks)) /\
  kept (state_of (report_names threads ks)).
Proof.
  intros kept. subst kept. cbv beta.
  destruct (ktrace_open_emitted tag ts tid ks) as (Ob & Om & Og & _).
  destruct (ktrace_name_emitted tag id arg name ts tid ks) as (Nb & Nm & Ng & _).
  pose proof (report_names_frozen threads ks) as (Rb & Rm & Rg).
  repeat split; assumption.
Qed.

(** ** The name record as a whole *)

Lemma with_header_tag_load (off tag ts tid : Z) (m : memory) :
  hdr_tag + 4 <= hdr_tid \/ hdr_tid + 4 <= hdr_tag ->
  load_le (with_header off tag ts tid m) (off + hdr_tag) 4 = tag mod 2 ^ 32.
Proof.
  intros Hdis. unfold with_header.
  rewrite load_le_store_other by (rewrite le_bytes_length; simpl Z.of_nat; lia).
  apply load_le_store.
Qed.

Lemma with_name_record_loads (rec id arg : Z) (name : memory) (len : Z) (m : memory) :
  0 <= len ->
  load_le (with_name_record rec id arg name len m) rec 4 = id mod 2 ^ 32 /\
  load_le (with_name_record rec id arg name len m) (rec + 4) 4 = arg mod 2 ^ 32 /\
  (forall a n, a + Z.of_nat n <= rec ->
     load_le (with_name_record rec id arg name len m) a n = load_le m a n).
Proof.
  intros Hlen. split; [ | split ].
  - unfold with_name_record.
    rewrite load_le_store_other by (rewrite le_bytes_length; simpl Z.of_nat; lia).
    rewrite load_le_store_other
      by (rewrite read_bytes_length, Z2Nat.id by lia; simpl Z.of_nat; lia).
    rewrite load_le_store_other by (rewrite le_bytes_length; simpl Z.of_nat; lia).
    apply load_le_store.
  - unfold with_name_record.
    rewrite load_le_store_other by (rewrite le_bytes_length; simpl Z.of_nat; lia).
    rewrite load_le_store_other
      by (rewrite read_bytes_length, Z2Nat.id by lia; simpl Z.of_nat; lia).
    apply load_le_store.
  - intros a n Ha.
    apply (load_le_frame _ _ n a rec (rec + 8 + len + 1)).
    + intros x Hx. apply with_name_record_outside; lia.
    + lia.
Qed.

(** C7.  [ktrace_name] takes at most 31 bytes of the name: [len] is the
    length of the string cut at 31.  The length the tag declares (its low
    four bits, in 8-byte units) is a multiple of 8 and covers header, id,
    arg, the [len] name bytes and the terminator.  No byte of the buffer
    outside the declared slot changes.  In a granted slot the record is
    there to be read: its header holds the tag with that length, the
    cursor has advanced by the length recovered from the stored tag, id
    and arg follow the header, and the name bytes are followed by a NUL.
    The record does not depend on any byte of the input from index 31 on
    or beyond the string's terminator. *)
Theorem name_record_truncated_and_bounded
    (tag id arg : Z) (name : memory) (ts tid : Z) (ks : ktrace_state) :
  sizeof_ktrace_header_t = KTRACE_HDRSIZE ->
  0 <= KTRACE_HDRSIZE <= 80 ->
  0 <= hdr_ts /\ hdr_ts + 8 <= sizeof_ktrace_header_t ->
  0 <= hdr_tag /\ hdr_tag + 4 <= sizeof_ktrace_header_t ->
  0 <= hdr_tid /\ hdr_tid + 4 <= sizeof_ktrace_header_t ->
  hdr_tag + 4 <= hdr_tid \/ hdr_tid + 4 <= hdr_tag ->
  let len := strnlen name 31 in
  let tag' := name_tag tag len in
  let r := ktrace_name tag id arg name ts tid ks in
  let rec := offset ks + KTRACE_HDRSIZE in
  (0 <= len <= 31 /\
   (forall i, 0 <= i < len -> name i <> 0) /\
   (len < 31 -> name len = 0)) /\
  (KTRACE_LEN tag' mod 8 = 0 /\
   KTRACE_HDRSIZE + 4 + 4 + len + 1 <= KTRACE_LEN tag') /\
  (forall a, a < offset ks \/ offset ks + KTRACE_LEN tag' <= a ->
             buffer (state_of r) a = buffer ks a) /\
  (Z.land tag' (to_u32 (grpmask ks)) <> 0 -> offset ks < to_int (bufsize ks) ->
   (forall i, 0 <= i < len -> buffer (state_of r) (rec + 8 + i) = name i) /\
   buffer (state_of r) (rec + 8 + len) = 0 /\
   load_le (buffer (state_of r)) (offset ks + hdr_tag) 4 = tag' mod 2 ^ 32 /\
   KTRACE_LEN (load_le (buffer (state_of r)) (offset ks + hdr_tag) 4)
     = KTRACE_LEN tag' /\
   offset (state_of r)
     = to_int (offset ks + KTRACE_LEN (load_le (buffer (state_of r))
                                         (offset ks + hdr_tag) 4)) /\
   load_le (buffer (state_of r)) rec 4 = id mod 2 ^ 32 /\
   load_le (buffer (state_of r)) (rec + 4) 4 = arg mod 2 ^ 32) /\
  (forall name' : memory,
     (forall i, 0 <= i < 31 -> i <= len -> name' i = name i) ->
     ktrace_name tag id arg name' ts tid ks = r).
Proof.
  intros Hsz Hh Hts Htag Htid Htt len tag' r rec.
  pose proof (strnlen_from_range name 31 0) as Hr. fold (strnlen name 31) in Hr.
  fold len in Hr. change (Z.of_nat 31) with 31 in Hr.
  assert (HL : KTRACE_LEN tag' = 8 * ((KTRACE_HDRSIZE + 8 + len + 1 + 7) / 8))
    by (apply name_tag_length; assumption).
  assert (Hcover : KTRACE_HDRSIZE + 4 + 4 + len + 1 <= KTRACE_LEN tag')
    by (rewrite HL; Z.div_mod_to_equations; lia).
  split; [ | split; [ | split; [ | split ] ] ].
  - split; [ exact Hr | ]. split.
    + intros i Hi. pose proof (strnlen_from_nonzero name 31 0 i Hi) as N.
      rewrite Z.add_0_l in N. exact N.
    + intros Hlt. pose proof (strnlen_from_stop name 31 0) as S0.
      rewrite Z.add_0_l in S0. apply S0. exact Hlt.
  - split; [ apply KTRACE_LEN_multiple | exact Hcover ].
  - intros a Hout. subst r.
    destruct (Z.eq_dec (Z.land tag' (to_u32 (grpmask ks))) 0) as [Hc|Ho].
    { apply (f_equal (fun m => m a)). apply ktrace_name_no_slot.
      fold len; fold tag'. rewrite (ktrace_open_closed _ _ _ _ Hc). reflexivity. }
    destruct (Z_lt_ge_dec (offset ks) (to_int (bufsize ks))) as [Hroom|Hfull].
    2:{ apply (f_equal (fun m => m a)). apply ktrace_name_no_slot.
        fold len; fold tag'. rewrite (ktrace_open_full _ _ _ _ Ho Hfull). reflexivity. }
    rewrite (ktrace_name_slot tag id arg name ts tid ks Ho Hroom).
    fold len; fold tag'. unfold with_name_record, with_header.
    repeat (rewrite store_bytes_outside;
            [ | rewrite ?le_bytes_length, ?read_bytes_length, ?Z2Nat.id by lia;
                simpl Z.of_nat; lia ]).
    reflexivity.
  - intros Ho Hroom. subst r.
    rewrite (ktrace_name_slot_run tag id arg name ts tid ks Ho Hroom).
    fold len; fold tag'. cbn [buffer offset set_buffer set_offset].
    subst rec. rewrite <- Hsz.
    set (rc := offset ks + sizeof_ktrace_header_t).
    set (hm := with_header (offset ks) tag' ts tid (buffer ks)).
    destruct (with_name_record_loads rc id arg name len hm ltac:(lia))
      as (Lid & Larg & Lhdr).
    assert (Ltag : load_le (with_name_record rc id arg name len hm)
                     (offset ks + hdr_tag) 4 = tag' mod 2 ^ 32).
    { rewrite Lhdr by (subst rc; simpl Z.of_nat; lia).
      apply with_header_tag_load. exact Htt. }
    rewrite Ltag, KTRACE_LEN_mod, Lid, Larg.
    split; [ | split; [ | repeat split ] ].
    + intros i Hi. unfold with_name_record.
      rewrite store_bytes_outside by (rewrite le_bytes_length; simpl Z.of_nat; lia).
      rewrite store_bytes_inside by (rewrite read_bytes_length, Z2Nat.id; lia).
      rewrite read_bytes_nth by lia.
      rewrite Z2Nat.id by lia. f_equal. lia.
    + unfold with_name_record.
      rewrite store_bytes_inside by (rewrite le_bytes_length; simpl Z.of_nat; lia).
      rewrite Z.sub_diag. reflexivity.
  - intros name' Hsame. subst r. apply ktrace_name_reads_prefix. exact Hsame.
Qed.

End Further.

(** ** The further properties at work *)

Lemma sample_header_fields_inside : @header_fields_inside sample_h.
Proof. unfold header_fields_inside. simpl. lia. Defined.

Lemma sample_header_fields_disjoint : @header_fields_disjoint sample_h.
Proof. unfold header_fields_disjoint. simpl. lia. Defined.

Lemma read_user_result_range_witness :
  4096 <> 0 /\
  0 <= 500 <= INT_MAX /\
  (result (@ktrace_read_user sample_h (fun _ _ _ => 0) 4096 300 500 (stopped_at 352 352))
     = @ERR_INVALID_ARGS sample_h \/
   0 <= result (@ktrace_read_user sample_h (fun _ _ _ => 0) 4096 300 500
                  (stopped_at 352 352)) <= 500).
Proof.
  assert (H1 : 4096 <> 0) by lia.
  assert (H2 : 0 <= 500 <= INT_MAX) by (vm_compute; split; discriminate).
  repeat (split; [ assumption | ]).
  exact (@read_user_result_range sample_h (fun _ _ _ => 0) 4096 300 500
           (stopped_at 352 352) H1 H2).
Defined.

Lemma stop_keeps_readable_extent_witness :
  @KTRACE_ACTION_STOP sample_h <> @KTRACE_ACTION_START sample_h /\
  @readable_max (state_of (@ktrace_control sample_h [] 2 0 (active_at 352))) = 352.
Proof.
  assert (Hne : @KTRACE_ACTION_STOP sample_h <> @KTRACE_ACTION_START sample_h)
    by (simpl; lia).
  split; [ exact Hne | ].
  exact (proj1 (@stop_keeps_readable_extent sample_h [] 0 (active_at 352) Hne)).
Defined.

Lemma stop_silences_emitters_witness :
  @KTRACE_ACTION_STOP sample_h <> @KTRACE_ACTION_START sample_h /\
  @ktrace_name sample_h sample_tag 7 0 idle_name 1000 1
    (state_of (@ktrace_control sample_h [] 2 0 (active_at 352))) =
  (tt, state_of (@ktrace_control sample_h [] 2 0 (active_at 352)), []).
Proof.
  assert (Hne : @KTRACE_ACTION_STOP sample_h <> @KTRACE_ACTION_START sample_h)
    by (simpl; lia).
  split; [ exact Hne | ].
  destruct (@stop_silences_emitters sample_h [] 0 (active_at 352) Hne
              sample_tag 7 0 idle_name 1000 1 []) as (_ & Hn & _).
  exact Hn.
Defined.

Lemma rewind_then_stop_leaves_metadata_witness :
  @KTRACE_ACTION_STOP sample_h <> @KTRACE_ACTION_START sample_h /\
  @KTRACE_ACTION_REWIND sample_h <> @KTRACE_ACTION_START sample_h /\
  @KTRACE_ACTION_REWIND sample_h <> @KTRACE_ACTION_STOP sample_h /\
  0 < @KTRACE_RECSIZE sample_h * 2 < 2 ^ 31 /\
  @KTRACE_RECSIZE sample_h * 2 <= bufsize (stopped_at 352 352) /\
  @size_query sample_h
    (state_of (@ktrace_control sample_h [] 2 0
       (state_of (@ktrace_control sample_h [] 3 0 (stopped_at 352 352))))) = 64.
Proof.
  assert (H1 : @KTRACE_ACTION_STOP sample_h <> @KTRACE_ACTION_START sample_h)
    by (simpl; lia).
  assert (H2 : @KTRACE_ACTION_REWIND sample_h <> @KTRACE_ACTION_START sample_h)
    by (simpl; lia).
  assert (H3 : @KTRACE_ACTION_REWIND sample_h <> @KTRACE_ACTION_STOP sample_h)
    by (simpl; lia).
  assert (H4 : 0 < @KTRACE_RECSIZE sample_h * 2 < 2 ^ 31) by (simpl; lia).
  assert (H5 : @KTRACE_RECSIZE sample_h * 2 <= bufsize (stopped_at 352 352))
    by (simpl; lia).
  repeat (split; [ assumption | ]).
  destruct (@rewind_then_stop_leaves_metadata sample_h [] [] 0 0 (stopped_at 352 352)
              H1 H2 H3 H4 H5) as (_ & Hq & _).
  exact Hq.
Defined.

Lemma consecutive_slots_adjacent_witness :
  Z.land sample_tag (to_u32 (grpmask (active_at 64))) <> 0 /\
  - 2 ^ 31 <= offset (active_at 64) /\
  offset (active_at 64) + KTRACE_LEN sample_tag < to_int (bufsize (active_at 64)) /\
  result (@ktrace_open sample_h sample_tag 1001 2
            (state_of (@ktrace_open sample_h sample_tag 1000 1 (active_at 64))))
  = Some (64 + 32 + 16) /\
  load_le (buffer (state_of (@ktrace_open sample_h sample_tag 1001 2
             (state_of (@ktrace_open sample_h sample_tag 1000 1 (active_at 64))))))
    (64 + @hdr_ts sample_h) 8 = 1000.
Proof.
  assert (H1 : Z.land sample_tag (to_u32 (grpmask (active_at 64))) <> 0)
    by (vm_compute; lia).
  assert (H2 : - 2 ^ 31 <= offset (active_at 64)) by (simpl; lia).
  assert (H3 : offset (active_at 64) + KTRACE_LEN sample_tag
               < to_int (bufsize (active_at 64))) by (vm_compute; reflexivity).
  repeat (split; [ assumption | ]).
  destruct (@consecutive_slots_adjacent sample_h sample_tag 1000 1 sample_tag 1001 2
              (active_at 64) H1 H1 H2 H3) as (_ & Hr & _ & Hkeep).
  split; [ exact Hr | ].
  destruct (Hkeep sample_header_fields_inside sample_header_fields_disjoint
              ltac:(vm_compute; discriminate)) as (Hts & _).
  exact Hts.
Defined.

Lemma emitters_keep_bytes_below_cursor_witness :
  @header_fields_inside sample_h /\
  - 2 ^ 31 <= offset (active_at 64) /\
  offset (active_at 64) + 120 * (Z.of_nat (length [idle_thread]) + 1) < 2 ^ 31 /\
  64 <= offset (state_of (@report_names sample_h [idle_thread] (active_at 64))).
Proof.
  assert (H2 : - 2 ^ 31 <= offset (active_at 64)) by (simpl; lia).
  assert (H3 : offset (active_at 64) + 120 * (Z.of_nat (length [idle_thread]) + 1)
               < 2 ^ 31) by (simpl; lia).
  split; [ exact sample_header_fields_inside | ].
  repeat (split; [ assumption | ]).
  destruct (@emitters_keep_bytes_below_cursor sample_h [idle_thread] (active_at 64)
              sample_header_fields_inside H2 H3) as (_ & _ & (Ho & _) & _).
  exact Ho.
Defined.

Lemma open_header_reads_back_witness :
  @header_fields_disjoint sample_h /\
  Z.land sample_tag (to_u32 (grpmask (active_at 64))) <> 0 /\
  offset (active_at 64) < to_int (bufsize (active_at 64)) /\
  load_le (buffer (state_of (@ktrace_open sample_h sample_tag 1000 1 (active_at 64))))
    (64 + @hdr_tag sample_h) 4 = sample_tag.
Proof.
  assert (H1 : Z.land sample_tag (to_u32 (grpmask (active_at 64))) <> 0)
    by (vm_compute; lia).
  assert (H2 : offset (active_at 64) < to_int (bufsize (active_at 64)))
    by (vm_compute; reflexivity).
  split; [ exact sample_header_fields_disjoint | ].
  repeat (split; [ assumption | ]).
  destruct (@open_header_reads_back sample_h sample_tag 1000 1 (active_at 64)
              sample_header_fields_disjoint H1 H2) as (_ & Ht & _).
  exact Ht.
Defined.

Lemma name_record_reads_back_witness :
  @header_fields_inside sample_h /\
  @header_fields_disjoint sample_h /\
  Z.land (@name_tag sample_h sample_tag (strnlen idle_name 31))
    (to_u32 (grpmask (active_at 64))) <> 0 /\
  offset (active_at 64) < to_int (bufsize (active_at 64)) /\
  load_le (buffer (state_of (@ktrace_name sample_h sample_tag 7 0 idle_name 1000 1
                               (active_at 64))))
    (64 + @sizeof_ktrace_header_t sample_h) 4 = 7.
Proof.
  assert (H1 : Z.land (@name_tag sample_h sample_tag (strnlen idle_name 31))
                 (to_u32 (grpmask (active_at 64))) <> 0) by (vm_compute; lia).
  assert (H2 : offset (active_at 64) < to_int (bufsize (active_at 64)))
    by (vm_compute; reflexivity).
  split; [ exact sample_header_fields_inside | ].
  split; [ exact sample_header_fields_disjoint | ].
  repeat (split; [ assumption | ]).
  destruct (@name_record_reads_back sample_h sample_tag 7 0 idle_name 1000 1
              (active_at 64) sample_header_fields_inside sample_header_fields_disjoint
              H1 H2) as (Hid & _).
  exact Hid.
Defined.

Lemma name_gated_like_its_tag_witness :
  0 <= @KTRACE_HDRSIZE sample_h <= 80 /\
  Z.land (to_u32 (grpmask (active_at 64))) 15 = 0 /\
  Z.land (@name_tag sample_h sample_tag (strnlen idle_name 31))
    (to_u32 (grpmask (active_at 64))) =
  Z.land sample_tag (to_u32 (grpmask (active_at 64))).
Proof.
  assert (H1 : 0 <= @KTRACE_HDRSIZE sample_h <= 80) by (simpl; lia).
  assert (H2 : Z.land (to_u32 (grpmask (active_at 64))) 15 = 0) by reflexivity.
  repeat (split; [ assumption | ]).
  exact (proj1 (@name_gated_like_its_tag sample_h sample_tag 7 0 idle_name 1000 1
                  (active_at 64) H1 H2)).
Defined.

Lemma full_buffer_stays_silent_witness :
  to_int (bufsize exhausted) <= offset exhausted /\
  offset exhausted + 120 * Z.of_nat (length [idle_thread]) < 2 ^ 31 /\
  buffer (state_of (@report_names sample_h [idle_thread] exhausted)) = buffer exhausted.
Proof.
  assert (H1 : to_int (bufsize exhausted) <= offset exhausted)
    by (vm_compute; discriminate).
  assert (H2 : offset exhausted + 120 * Z.of_nat (length [idle_thread]) < 2 ^ 31)
    by (simpl; lia).
  repeat (split; [ assumption | ]).
  destruct (@full_buffer_stays_silent sample_h [idle_thread] exhausted H1 H2)
    as (_ & Hb & _).
  exact Hb.
Defined.


Lemma init_disabled_never_records_witness :
  (cmdline_bufsize disabled_boot = 0 \/ alloc_status disabled_boot < 0) /\
  state_of (@ktrace_init sample_h disabled_boot KTRACE_STATE) = KTRACE_STATE /\
  result (@ktrace_open sample_h sample_tag 1000 1
            (state_of (@ktrace_control sample_h [idle_thread] 1 0
               (state_of (@ktrace_init sample_h disabled_boot KTRACE_STATE))))) = None.
Proof.
  assert (H1 : cmdline_bufsize disabled_boot = 0 \/ alloc_status disabled_boot < 0)
    by (left; reflexivity).
  split; [ exact H1 | ].
  destruct (@init_disabled_never_records sample_h disabled_boot H1)
    as (Hz & _ & _ & Hstart).
  split; [ exact Hz | ].
  destruct (Hstart [idle_thread] 0 sample_tag 1000 1 ltac:(vm_compute; reflexivity))
    as (_ & Hn & _).
  exact Hn.
Defined.

Lemma init_publishes_metadata_witness :
  cmdline_bufsize sample_boot <> 0 /\
  0 <= alloc_status sample_boot /\
  @rec_32b_fields_ordered sample_h /\
  @header_fields_inside sample_h /\
  @sizeof_ktrace_rec_32b_t sample_h * 2 <= @KTRACE_RECSIZE sample_h * 2 /\
  @KTRACE_RECSIZE sample_h * 2 + 120 * Z.of_nat (length (boot_threads sample_boot))
    < 2 ^ 31 /\
  bufsize (state_of (@ktrace_init sample_h sample_boot KTRACE_STATE)) = 1048320.
Proof.
  assert (H1 : cmdline_bufsize sample_boot <> 0) by (simpl; lia).
  assert (H2 : 0 <= alloc_status sample_boot) by (simpl; lia).
  assert (H3 : @rec_32b_fields_ordered sample_h)
    by (unfold rec_32b_fields_ordered; simpl; lia).
  assert (H5 : @sizeof_ktrace_rec_32b_t sample_h * 2 <= @KTRACE_RECSIZE sample_h * 2)
    by (simpl; lia).
  assert (H6 : @KTRACE_RECSIZE sample_h * 2
               + 120 * Z.of_nat (length (boot_threads sample_boot)) < 2 ^ 31)
    by (simpl; lia).
  split; [ exact H1 | ]. split; [ exact H2 | ]. split; [ exact H3 | ].
  split; [ exact sample_header_fields_inside | ].
  split; [ exact H5 | ]. split; [ exact H6 | ].
  exact (proj1 (@init_publishes_metadata sample_h sample_boot H1 H2 H3
                  sample_header_fields_inside H5 H6)).
Defined.

Lemma records_stay_inside_allocation_witness :
  @header_fields_inside sample_h /\
  @sizeof_ktrace_header_t sample_h <= 216 /\
  0 <= offset (active_at 992) /\
  0 <= bufsize (active_at 992) < 2 ^ 31 /\
  (1256 < 0 \/ bufsize (active_at 992) + 256 <= 1256) /\
  buffer (state_of (@ktrace_name sample_h sample_tag 7 0 idle_name 1000 1
                      (active_at 992))) 1256 = buffer (active_at 992) 1256.
Proof.
  assert (H2 : @sizeof_ktrace_header_t sample_h <= 216) by (simpl; lia).
  assert (H3 : 0 <= offset (active_at 992)) by (simpl; lia).
  assert (H4 : 0 <= bufsize (active_at 992) < 2 ^ 31) by (simpl; lia).
  assert (H5 : 1256 < 0 \/ bufsize (active_at 992) + 256 <= 1256) by (simpl; lia).
  split; [ exact sample_header_fields_inside | ].
  repeat (split; [ assumption | ]).
  exact (proj2 (@records_stay_inside_allocation sample_h sample_tag 7 0 idle_name
                  1000 1 (active_at 992) 1256 sample_header_fields_inside H2 H3 H4 H5)).
Defined.

Lemma control_without_start_keeps_buffer_witness :
  3 <> @KTRACE_ACTION_START sample_h /\
  bufsize (state_of (@ktrace_control sample_h [idle_thread] 3 0 (active_at 352))) =
  bufsize (active_at 352).
Proof.
  assert (H1 : 3 <> @KTRACE_ACTION_START sample_h) by (simpl; lia).
  split; [ exact H1 | ].
  destruct (@control_without_start_keeps_buffer sample_h [idle_thread] 3 0
              (active_at 352) H1) as (_ & Hb & _).
  exact Hb.
Defined.

Lemma name_record_truncated_and_bounded_witness :
  @sizeof_ktrace_header_t sample_h = @KTRACE_HDRSIZE sample_h /\
  0 <= @KTRACE_HDRSIZE sample_h <= 80 /\
  (0 <= @hdr_ts sample_h /\ @hdr_ts sample_h + 8 <= @sizeof_ktrace_header_t sample_h) /\
  (0 <= @hdr_tag sample_h /\ @hdr_tag sample_h + 4 <= @sizeof_ktrace_header_t sample_h) /\
  (0 <= @hdr_tid sample_h /\ @hdr_tid sample_h + 4 <= @sizeof_ktrace_header_t sample_h) /\
  (@hdr_tag sample_h + 4 <= @hdr_tid sample_h \/
   @hdr_tid sample_h + 4 <= @hdr_tag sample_h) /\
  @KTRACE_HDRSIZE sample_h + 4 + 4 + strnlen idle_name 31 + 1
    <= KTRACE_LEN (@name_tag sample_h sample_tag (strnlen idle_name 31)) /\
  KTRACE_LEN (load_le (buffer (state_of (@ktrace_name sample_h sample_tag 7 0 idle_name
                                          1000 1 (active_at 64))))
                (64 + @hdr_tag sample_h) 4) = 32.
Proof.
  assert (H1 : @sizeof_ktrace_header_t sample_h = @KTRACE_HDRSIZE sample_h)
    by reflexivity.
  assert (H2 : 0 <= @KTRACE_HDRSIZE sample_h <= 80) by (simpl; lia).
  assert (H3 : 0 <= @hdr_ts sample_h /\
               @hdr_ts sample_h + 8 <= @sizeof_ktrace_header_t sample_h)
    by (simpl; lia).
  assert (H4 : 0 <= @hdr_tag sample_h /\
               @hdr_tag sample_h + 4 <= @sizeof_ktrace_header_t sample_h)
    by (simpl; lia).
  assert (H5 : 0 <= @hdr_tid sample_h /\
               @hdr_tid sample_h + 4 <= @sizeof_ktrace_header_t sample_h)
    by (simpl; lia).
  assert (H6 : @hdr_tag sample_h + 4 <= @hdr_tid sample_h \/
               @hdr_tid sample_h + 4 <= @hdr_tag sample_h) by (simpl; lia).
  repeat (split; [ assumption | ]).
  destruct (@name_record_truncated_and_bounded sample_h sample_tag 7 0 idle_name 1000 1
              (active_at 64) H1 H2 H3 H4 H5 H6) as (_ & (_ & Hcover) & _ & Hslot & _).
  split; [ exact Hcover | ].
  destruct (Hslot ltac:(vm_compute; lia) ltac:(vm_compute; reflexivity))
    as (_ & _ & _ & Hlen & _).
  exact Hlen.
Defined.
